(** * Hotel Booking API: the request handlers of [main.py] over the schemas
      of [schemas.py], embedded as state-and-exception passing functions.

    Python values are a small inductive universe, documents are finite maps
    from keys to values, the document store is a finite map from collection
    names to document sequences, and a handler is a function from the world
    (the [db] handle and the log of store calls) to an outcome and a world.
    A [str] is a [string], one [ascii] per character, so that [len] is
    [String.length].  The database module ([db], [create_document],
    [get_documents]) is not among the sources; its three operations follow
    section 4.2 of the specification. *)

From Stdlib Require Import ZArith String Ascii List Bool Lia.
From stdpp Require Import base decidable option list strings pretty gmap fin_maps.

Open Scope string_scope.
Open Scope list_scope.
Open Scope Z_scope.

(** ** Python values *)

Module Py.

(** [datetime.date]: a calendar date.  Python builds only the dates that
    exist, with a year from 1 to 9999; the handlers pass dates on and never
    look inside one. *)
Record date := Date { year : Z; month : Z; day : Z }.

(** A naive [datetime.datetime]. *)
Record datetime := DateTime {
  on_date : date; hour : Z; minute : Z; second : Z; microsecond : Z }.

(** [bson.ObjectId]: twelve bytes, held as their 24 lower-case hex digits. *)
Record ObjectId := Oid { hex : string }.

(** A [float], held as the text [repr] prints for it (the shortest
    decimal that reads back as the same float): the handlers store and
    print floats and compute nothing with them. *)
Record float := Float { repr : string }.

Inductive value :=
| VNone
| VStr (s : string)
| VInt (n : Z)
| VFloat (x : float)
| VList (l : list string)
| VObjectId (o : ObjectId)
| VDate (d : date)
| VDateTime (t : datetime).

#[global] Instance date_eq_dec : EqDecision date.
Proof. solve_decision. Defined.
#[global] Instance datetime_eq_dec : EqDecision datetime.
Proof. solve_decision. Defined.
#[global] Instance ObjectId_eq_dec : EqDecision ObjectId.
Proof. solve_decision. Defined.
#[global] Instance float_eq_dec : EqDecision float.
Proof. solve_decision. Defined.
#[global] Instance value_eq_dec : EqDecision value.
Proof. solve_decision. Defined.

(** [n] written in decimal on exactly [w] digits, as [%0wd] does for a
    number that fits. *)
Fixpoint zfill (w : nat) (n : Z) : string :=
  match w with
  | O => EmptyString
  | S w' => zfill w' (n / 10) ++ String (ascii_of_nat (48 + Z.to_nat (n mod 10))) EmptyString
  end.

(** [date.isoformat()]: YYYY-MM-DD. *)
Definition date_isoformat (d : date) : string :=
  zfill 4 (year d) ++ "-" ++ zfill 2 (month d) ++ "-" ++ zfill 2 (day d).

Definition time_isoformat (t : datetime) : string :=
  zfill 2 (hour t) ++ ":" ++ zfill 2 (minute t) ++ ":" ++ zfill 2 (second t)
  ++ (if decide (microsecond t = 0) then EmptyString
      else "." ++ zfill 6 (microsecond t)).

(** [datetime.isoformat(sep)]. *)
Definition datetime_isoformat (sep : string) (t : datetime) : string :=
  date_isoformat (on_date t) ++ sep ++ time_isoformat t.

(** [hasattr(v, "isoformat")]. *)
Definition has_isoformat (v : value) : bool :=
  match v with
  | VDate _ | VDateTime _ => true
  | _ => false
  end.

(** [v.isoformat()], for the values that have the method. *)
Definition isoformat (v : value) : option string :=
  match v with
  | VDate d => Some (date_isoformat d)
  | VDateTime t => Some (datetime_isoformat "T" t)
  | _ => None
  end.

Definition is_hex_digit (c : ascii) : bool :=
  let n := nat_of_ascii c in
  ((48 <=? n) && (n <=? 57) || (97 <=? n) && (n <=? 102) || (65 <=? n) && (n <=? 70))%nat.

Definition lower (c : ascii) : ascii :=
  let n := nat_of_ascii c in
  if ((65 <=? n) && (n <=? 90))%nat then ascii_of_nat (n + 32) else c.

Fixpoint string_forallb (p : ascii → bool) (s : string) : bool :=
  match s with
  | EmptyString => true
  | String c s' => p c && string_forallb p s'
  end.

Fixpoint string_map (f : ascii → ascii) (s : string) : string :=
  match s with
  | EmptyString => EmptyString
  | String c s' => String (f c) (string_map f s')
  end.

(** ASCII whitespace, as [bytes.fromhex] skips it: space, tab, line feed,
    vertical tab, form feed, carriage return. *)
Definition is_space (c : ascii) : bool :=
  let n := nat_of_ascii c in
  ((n =? 32) || (9 <=? n) && (n <=? 13))%nat.

(** [bytes.fromhex(s).hex()]: the bytes that [s] spells, two hex digits
    each, whitespace being skipped before a byte but not inside one; [None]
    where [fromhex] raises [ValueError]. *)
Fixpoint fromhex (s : string) : option string :=
  match s with
  | EmptyString => Some EmptyString
  | String c s' =>
      if is_space c then fromhex s'
      else if is_hex_digit c then
        match s' with
        | String c' s'' =>
            if is_hex_digit c'
            then (λ r, String (lower c) (String (lower c') r)) <$> fromhex s''
            else None
        | EmptyString => None
        end
      else None
  end.

(** [ObjectId(s)] on a string, as bson validates it: the string must have
    24 characters and go through [bytes.fromhex]; the identifier holds the
    bytes read, which are twelve when the 24 characters are all hex digits
    and fewer when some are whitespace.  [None] where bson raises
    [InvalidId]. *)
Definition ObjectId_of_str (s : string) : option ObjectId :=
  if (String.length s =? 24)%nat then Oid <$> fromhex s else None.

Definition hex_digit (n : N) : ascii :=
  ascii_of_nat (if (n <? 10)%N then 48 + N.to_nat n else 87 + N.to_nat n).

(** [n] in lower-case hexadecimal on exactly [w] digits. *)
Fixpoint hex_fill (w : nat) (n : N) : string :=
  match w with
  | O => EmptyString
  | S w' => hex_fill w' (n / 16) ++ String (hex_digit (n mod 16)) EmptyString
  end.

Definition occurs (c : ascii) (s : string) : bool :=
  negb (string_forallb (λ x, negb (bool_decide (x = c))) s).

Definition single_quote : ascii := ascii_of_nat 39.
Definition double_quote : ascii := ascii_of_nat 34.
Definition backslash : ascii := ascii_of_nat 92.

(** The characters [repr] copies as they are: the printable ones of
    ASCII and of Latin-1. *)
Definition printable (c : ascii) : bool :=
  let n := nat_of_ascii c in
  ((32 <=? n) && (n <=? 126) || (161 <=? n) && negb (n =? 173))%nat.

(** One character of a string inside [repr]'s quotes. *)
Definition repr_char (quote c : ascii) : string :=
  let n := nat_of_ascii c in
  if bool_decide (c = quote) || bool_decide (c = backslash)
  then String backslash (String c EmptyString)
  else if (n =? 9)%nat then String backslash "t"
  else if (n =? 10)%nat then String backslash "n"
  else if (n =? 13)%nat then String backslash "r"
  else if printable c then String c EmptyString
  else String backslash ("x" ++ hex_fill 2 (N.of_nat n)).

Fixpoint repr_chars (quote : ascii) (s : string) : string :=
  match s with
  | EmptyString => EmptyString
  | String c s' => repr_char quote c ++ repr_chars quote s'
  end.

(** [repr(s)] of a string: in single quotes, or in double quotes when
    the string holds a single quote and no double quote; the quote in use
    and the backslash are escaped, and so is what does not print. *)
Definition repr_str (s : string) : string :=
  let quote :=
    if occurs single_quote s && negb (occurs double_quote s)
    then double_quote else single_quote in
  String quote (repr_chars quote s ++ String quote EmptyString).

(** [str(v)]. *)
Definition str (v : value) : string :=
  match v with
  | VNone => "None"
  | VStr s => s
  | VInt n => pretty n
  | VFloat x => repr x
  | VList l => "[" ++ String.concat ", " (map repr_str l) ++ "]"
  | VObjectId o => hex o
  | VDate d => date_isoformat d
  | VDateTime t => datetime_isoformat " " t
  end.

(** Truth value of an optional string ([None] and the empty string are
    false). *)
Definition truthy_str (o : option string) : bool :=
  match o with
  | Some (String _ _) => true
  | _ => false
  end.

(** [a or b] on an optional string with a string default. *)
Definition or_str (o : option string) (dflt : string) : string :=
  match o with
  | Some (String c s) => String c s
  | _ => dflt
  end.

(** [s.split(sep)[0]]: the part of [s] before the first [sep]. *)
Fixpoint split_head (sep : ascii) (s : string) : string :=
  match s with
  | EmptyString => EmptyString
  | String c s' => if decide (c = sep) then EmptyString else String c (split_head sep s')
  end.

End Py.
Import Py.

(** ** Documents and the document store *)

(** A document: a Python [dict] from field names to values. *)
Abbreviation doc := (gmap string value).

(** A query filter [{k: v, ...}]: every listed field must hold that value. *)
Abbreviation query := (list (string * value)).

Definition matches (flt : query) (d : doc) : bool :=
  forallb (λ kv, bool_decide (d !! kv.1 = Some kv.2)) flt.

(** The calls a handler makes on the store, in the order it makes them. *)
Inductive store_op :=
| OpFindOne (collection : string) (flt : query)
| OpFind (collection : string) (flt : query)
| OpInsert (collection : string) (d : doc).

(** The store: named collections of documents, and the counter from which
    the store draws the identifier of the next inserted document. *)
Record store := Store {
  collections : gmap string (list doc);
  next_id : N }.

(** [st[name]]: the documents of a collection (none if it was never
    written). *)
Definition collection (st : store) (name : string) : list doc :=
  default [] (collections st !! name).

(** Modelled from the spec: the opaque identifier the store assigns at
    creation (section 3); the driver that draws it is not part of the
    sources.  Here the [n]-th identifier is [n] on 24 hex digits. *)
Definition assign_id (n : N) : ObjectId := Oid (hex_fill 24 n).

(** Modelled from the spec: [find_one(collection, filter) -> entity or
    absent] of the persistence helper (section 4.2), the first document of
    the collection that matches. *)
Definition store_find_one (st : store) (name : string) (flt : query) : option doc :=
  head (filter (λ d, matches flt d = true) (collection st name)).

(** Modelled from the spec: [query(collection, filter) -> sequence of
    entities] (section 4.2). *)
Definition store_find (st : store) (name : string) (flt : query) : list doc :=
  filter (λ d, matches flt d = true) (collection st name).

(** Modelled from the spec: [create(collection, entity) -> id] (section
    4.2): the entity is stored under a fresh identifier [_id], at the end of
    its collection. *)
Definition store_insert (st : store) (name : string) (d : doc) : ObjectId * store :=
  let oid := assign_id (next_id st) in
  (oid,
   {| collections := <[name := collection st name ++ [<["_id" := VObjectId oid]> d]]> (collections st);
      next_id := N.succ (next_id st) |}).

(** ** Exceptions and the handler monad *)

(** A constraint of a schema field. *)
Inductive constraint :=
| EmailFormat
| GreaterEqual (bound : Z)
| LessEqual (bound : Z)
| MinLength (n : nat).

(** The exceptions the handlers meet.  The [detail] of an [HTTPException]
    is a literal message or [str(e)] of the exception it was built from. *)
Inductive exn :=
| HTTPException (status_code : Z) (d : detail)
| Exception (msg : string)
| TypeError (msg : string)
| AttributeError (msg : string)
| InvalidId (s : string)
| ValidationError (model : string) (errors : list (string * constraint))
with detail :=
| Message (s : string)
| StrOf (e : exn).

(** What a handler runs in: the [db] handle of the database module ([None]
    when no database is configured) and the log of the store calls made. *)
Record world := World {
  db : option store;
  trace : list store_op }.

Inductive outcome (A : Type) :=
| Return (a : A)
| Raise (e : exn).
Arguments Return {A} a.
Arguments Raise {A} e.

Definition M (A : Type) : Type := world → outcome A * world.

#[global] Instance M_ret : MRet M := λ A a w, (Return a, w).
#[global] Instance M_bind : MBind M := λ A B f m w,
  match m w with
  | (Return a, w') => f a w'
  | (Raise e, w') => (Raise e, w')
  end.

Definition raise {A} (e : exn) : M A := λ w, (Raise e, w).

(** [try: body except ...: handler]. *)
Definition try_except {A} (body : M A) (handler : exn → M A) : M A := λ w,
  match body w with
  | (Return a, w') => (Return a, w')
  | (Raise e, w') => handler e w'
  end.

Definition get_db : M (option store) := λ w, (Return (db w), w).

Definition log (op : store_op) : M unit := λ w,
  (Return tt, {| db := db w; trace := trace w ++ [op] |}).

Definition put_store (st : store) : M unit := λ w,
  (Return tt, {| db := Some st; trace := trace w |}).

(** [bool(db)]. *)
Definition db_truthy (d : option store) : bool :=
  match d with Some _ => true | None => false end.

(** [bool(doc)] for the result of [find_one]: [None] and the empty dict are
    false. *)
Definition doc_truthy (o : option doc) : bool :=
  match o with
  | Some d => negb (bool_decide (d = ∅))
  | None => false
  end.

(** [db[name].find_one(flt)]; subscripting [None] is a [TypeError]. *)
Definition find_one (name : string) (flt : query) : M (option doc) :=
  d ← get_db;
  match d with
  | None => raise (TypeError "'NoneType' object is not subscriptable")
  | Some st => _ ← log (OpFindOne name flt); mret (store_find_one st name flt)
  end.

(** Modelled from the spec: [create_document] of the database module, which
    is not part of the sources: [create(collection, entity) -> id] (section
    4.2), the id returned as a string; a store that is not available is an
    error (section 4.3, "500 if store unavailable"). *)
Definition create_document (name : string) (data : doc) : M string :=
  d ← get_db;
  match d with
  | None => raise (Exception "Database not available")
  | Some st =>
      _ ← log (OpInsert name data);
      let r := store_insert st name data in
      _ ← put_store r.2;
      mret (str (VObjectId r.1))
  end.

(** Modelled from the spec: [get_documents] of the database module, which is
    not part of the sources: [query(collection, filter) -> sequence of
    entities] (section 4.2); no limit is passed by the callers. *)
Definition get_documents (name : string) (flt : query) : M (list doc) :=
  d ← get_db;
  match d with
  | None => raise (Exception "Database not available")
  | Some st => _ ← log (OpFind name flt); mret (store_find st name flt)
  end.

(** [for x in xs: body(x)]. *)
Fixpoint for_each {A} (xs : list A) (body : A → M unit) : M unit :=
  match xs with
  | [] => mret tt
  | x :: xs' => _ ← body x; for_each xs' body
  end.

(** ** schemas.py *)

Module Hotel.
Record t := Build {
  name : string;
  city : string;
  description : string;
  images : list string;
  price_per_night : float;
  rating : float }.

Definition model_dump (h : t) : doc :=
  {[ "name" := VStr (name h);
     "city" := VStr (city h);
     "description" := VStr (description h);
     "images" := VList (images h);
     "price_per_night" := VFloat (price_per_night h);
     "rating" := VFloat (rating h) ]}.
End Hotel.

Module Booking.
Record t := Build {
  user_email : string;
  hotel_id : string;
  check_in : date;
  check_out : date;
  guests : Z;
  special_requests : option string }.

Definition model_dump (b : t) : doc :=
  {[ "user_email" := VStr (user_email b);
     "hotel_id" := VStr (hotel_id b);
     "check_in" := VDate (check_in b);
     "check_out" := VDate (check_out b);
     "guests" := VInt (guests b);
     "special_requests" := from_option VStr VNone (special_requests b) ]}.
End Booking.

Module ContactMessage.
Record t := Build {
  name : string;
  email : string;
  message : string }.

Definition model_dump (m : t) : doc :=
  {[ "name" := VStr (name m);
     "email" := VStr (email m);
     "message" := VStr (message m) ]}.
End ContactMessage.

(** ** main.py: the request models *)

Module LoginRequest.
Record t := Build {
  name : option string;
  email : string;
  password : string }.
End LoginRequest.

Module BookingRequest.
Record t := Build {
  user_email : string;
  hotel_id : string;
  check_in : date;
  check_out : date;
  guests : Z;
  special_requests : option string }.
End BookingRequest.

(** The [user] object of the login response. *)
Record profile := Profile { profile_name : value; profile_email : string }.

(** What the client receives: the handler's result with status 200, the
    status and detail of an [HTTPException], or 422 with the violated
    fields when the body does not validate against the handler's
    parameter model. *)
Inductive response (A : Type) :=
| Ok (body : A)
| Failed (status_code : Z) (d : detail)
| Unprocessable (errors : list (string * constraint)).
Arguments Ok {A} body.
Arguments Failed {A} status_code d.
Arguments Unprocessable {A} errors.

Definition status {A} (r : response A) : Z :=
  match r with
  | Ok _ => 200
  | Failed s _ => s
  | Unprocessable _ => 422
  end.

(** The fields an error list names. *)
Definition fields_of (errors : list (string * constraint)) : list string :=
  map fst errors.

(** An exception that leaves a handler: an [HTTPException] becomes its
    status and detail, anything else is a bare 500. *)
Definition respond {A} (m : M A) (w : world) : response A * world :=
  match m w with
  | (Return a, w') => (Ok a, w')
  | (Raise (HTTPException s d), w') => (Failed s d, w')
  | (Raise _, w') => (Failed 500 (Message "Internal Server Error"), w')
  end.

(** A route whose body parameter has a model: the body is validated first,
    and the handler runs only on a body without errors. *)
Definition route {B A} (errors : B → list (string * constraint))
    (handler : B → M A) (body : B) (w : world) : response A * world :=
  match errors body with
  | [] => respond (handler body) w
  | e :: es => (Unprocessable (e :: es), w)
  end.

(** ** main.py: serialize_doc *)

(** The loop over [list(doc.items())]: an entry whose value has
    [isoformat] is overwritten with the method's result. *)
Definition convert_dates (d : doc) : doc :=
  map_fold (λ k v acc,
    if has_isoformat v
    then match isoformat v with
         | Some s => <[k := VStr s]> acc
         | None => acc
         end
    else acc) d d.

Definition serialize_doc (d : doc) : doc :=
  if bool_decide (d = ∅) then d
  else
    let d1 :=
      match d !! "_id" with
      | Some v => <["id" := VStr (str v)]> (delete "_id" d)
      | None => d
      end in
    convert_dates d1.

(** ** main.py: the handlers *)

Definition SAMPLE_HOTELS : list Hotel.t := [
  Hotel.Build "Seaside Paradise Resort" "Miami"
    "Oceanfront resort with private beach, pool, and spa."
    [ "https://images.unsplash.com/photo-1501117716987-c8e3f71b1e47";
      "https://images.unsplash.com/photo-1559599238-0f8c2f66a7e3" ]
    (Float "219.0") (Float "4.6");
  Hotel.Build "Urban Chic Hotel" "New York"
    "Boutique hotel in the heart of the city with skyline views."
    [ "https://images.unsplash.com/photo-1522708323590-d24dbb6b0267";
      "https://images.unsplash.com/photo-1509057199576-632a47484ece" ]
    (Float "299.0") (Float "4.7");
  Hotel.Build "Mountain Escape Lodge" "Denver"
    "Cozy lodge with mountain views, hiking access, and hot tubs."
    [ "https://images.unsplash.com/photo-1505691938895-1758d7feb511";
      "https://images.unsplash.com/photo-1507679799987-c73779587ccf" ]
    (Float "189.0") (Float "4.5") ].

(** [except Exception as e: raise HTTPException(status_code=500,
    detail=str(e))]. *)
Definition as_500 {A} (e : exn) : M A := raise (HTTPException 500 (StrOf e)).

(** The loop body of [seed_hotels]. *)
Definition seed_one (h : Hotel.t) : M unit :=
  exists_ ← find_one "hotel" [("name", VStr (Hotel.name h))];
  if negb (doc_truthy exists_)
  then _ ← create_document "hotel" (Hotel.model_dump h); mret tt
  else mret tt.

Definition seed_hotels : M doc :=
  try_except
    (d ← get_db;
     if negb (db_truthy d) then raise (Exception "Database not configured")
     else
       _ ← for_each SAMPLE_HOTELS seed_one;
       mret {[ "status" := VStr "ok" ]})
    as_500.

Definition list_hotels (city : option string) : M (list doc) :=
  try_except
    (let flt : query :=
       if truthy_str city then [("city", from_option VStr VNone city)] else [] in
     hotels ← get_documents "hotel" flt;
     mret (map serialize_doc hotels))
    as_500.

(** The [user_data] dict of [login]. *)
Definition user_data (req : LoginRequest.t) : doc :=
  {[ "name" := VStr (or_str (LoginRequest.name req)
                             (split_head "@" (LoginRequest.email req)));
     "email" := VStr (LoginRequest.email req);
     "password_hash" := VStr "demo-hash" ]}.

(** [d[k]] on a dict known to hold [k] (the default stands for the
    [KeyError] that cannot occur). *)
Definition item (d : doc) (k : string) : value := default VNone (d !! k).

Definition login (req : LoginRequest.t) : M profile :=
  try_except
    (d ← get_db;
     existing ← (if db_truthy d
                 then find_one "user" [("email", VStr (LoginRequest.email req))]
                 else mret None);
     existing ← (if negb (doc_truthy existing)
                 then
                   _ ← create_document "user" (user_data req);
                   d ← get_db;
                   if db_truthy d
                   then find_one "user" [("email", VStr (LoginRequest.email req))]
                   else mret (Some (user_data req))
                 else mret existing);
     match existing with
     | None => raise (AttributeError "'NoneType' object has no attribute 'get'")
     | Some u =>
         mret {| profile_name := default (item (user_data req) "name") (u !! "name");
                 profile_email := LoginRequest.email req |}
     end)
    as_500.

Section Validation.

(** What [EmailStr] accepts; the validator is pydantic's, not the
    repository's. *)
Variable valid_email : string → bool.

Definition check (ok : bool) (field : string) (c : constraint) :
    list (string * constraint) :=
  if ok then [] else [(field, c)].

(** The bodies below are given with every field present and of its
    declared type, as the request model holds them once parsed; what is
    left to check is the constraints on the values.

    The field violations of a body offered to [LoginRequest]. *)
Definition LoginRequest_errors (r : LoginRequest.t) : list (string * constraint) :=
  check (valid_email (LoginRequest.email r)) "email" EmailFormat.

(** The field violations of a body offered to [BookingRequest]: [guests] is
    any [int] there. *)
Definition BookingRequest_errors (r : BookingRequest.t) : list (string * constraint) :=
  check (valid_email (BookingRequest.user_email r)) "user_email" EmailFormat.

(** The field violations of the arguments of [Booking(...)]. *)
Definition Booking_errors (r : BookingRequest.t) : list (string * constraint) :=
  check (valid_email (BookingRequest.user_email r)) "user_email" EmailFormat
  ++ check (1 <=? BookingRequest.guests r)%Z "guests" (GreaterEqual 1)
  ++ check (BookingRequest.guests r <=? 10)%Z "guests" (LessEqual 10).

(** The field violations of a body offered to [ContactMessage]. *)
Definition ContactMessage_errors (m : ContactMessage.t) : list (string * constraint) :=
  check (valid_email (ContactMessage.email m)) "email" EmailFormat
  ++ check (5 <=? String.length (ContactMessage.message m))%nat "message" (MinLength 5).

(** [Booking] built from the dumped fields of the request, as line 177 of
    main.py does. *)
Definition Booking_of_request (req : BookingRequest.t) : M Booking.t :=
  match Booking_errors req with
  | [] => mret (Booking.Build (BookingRequest.user_email req)
                  (BookingRequest.hotel_id req) (BookingRequest.check_in req)
                  (BookingRequest.check_out req) (BookingRequest.guests req)
                  (BookingRequest.special_requests req))
  | e :: es => raise (ValidationError "Booking" (e :: es))
  end.

(** [ObjectId(s)] as a step of a handler. *)
Definition ObjectId_new (s : string) : M ObjectId :=
  match ObjectId_of_str s with
  | Some o => mret o
  | None => raise (InvalidId s)
  end.

Definition create_booking (req : BookingRequest.t) : M doc :=
  try_except
    (d ← get_db;
     if negb (db_truthy d) then raise (Exception "Database not configured")
     else
       oid ← ObjectId_new (BookingRequest.hotel_id req);
       hotel ← find_one "hotel" [("_id", VObjectId oid)];
       if negb (doc_truthy hotel)
       then raise (HTTPException 404 (Message "Hotel not found"))
       else
         booking ← Booking_of_request req;
         booking_id ← create_document "booking" (Booking.model_dump booking);
         mret {[ "id" := VStr booking_id; "message" := VStr "Booking confirmed" ]})
    (λ e, match e with
          | HTTPException _ _ => raise e
          | _ => as_500 e
          end).

Definition contact (message : ContactMessage.t) : M doc :=
  try_except
    (mid ← create_document "contactmessage" (ContactMessage.model_dump message);
     mret {[ "id" := VStr mid; "status" := VStr "received" ]})
    as_500.

(** ** The routes *)

Definition post_auth_login := route LoginRequest_errors login.
Definition post_hotels_seed := respond seed_hotels.
Definition get_hotels (city : option string) := respond (list_hotels city).
Definition post_bookings := route BookingRequest_errors create_booking.
Definition post_contact := route ContactMessage_errors contact.

End Validation.

(** * Notions used in the statements *)

(** What the date loop of [serialize_doc] leaves under a key that held
    [v]. *)
Definition to_iso (v : value) : value :=
  match isoformat v with
  | Some s => VStr s
  | None => v
  end.

(** The dict [serialize_doc] works on once [_id] has moved to [id]. *)
Definition rename_id (d : doc) : doc :=
  match d !! "_id" with
  | Some v => <["id" := VStr (str v)]> (delete "_id" d)
  | None => d
  end.

(** The documents of a collection that hold [v] under [k]. *)
Definition holding (k : string) (v : value) (ds : list doc) : list doc :=
  filter (λ d, d !! k = Some v) ds.

(** The [Booking] that line 177 builds from a request. *)
Definition Booking_of (req : BookingRequest.t) : Booking.t :=
  Booking.Build (BookingRequest.user_email req) (BookingRequest.hotel_id req)
    (BookingRequest.check_in req) (BookingRequest.check_out req)
    (BookingRequest.guests req) (BookingRequest.special_requests req).

(** The store after one turn of the seeding loop. *)
Definition seed_store_one (h : Hotel.t) (st : store) : store :=
  if doc_truthy (store_find_one st "hotel" [("name", VStr (Hotel.name h))])
  then st
  else (store_insert st "hotel" (Hotel.model_dump h)).2.

(** The store after the seeding loop over [hs]. *)
Fixpoint seed_store (hs : list Hotel.t) (st : store) : store :=
  match hs with
  | [] => st
  | h :: hs' => seed_store hs' (seed_store_one h st)
  end.

(** The hotels of a store that bear a name. *)
Definition named (n : string) (st : store) : list doc :=
  holding "name" (VStr n) (collection st "hotel").

(** Unfolds the steps of a handler down to the world it is run in. *)
Ltac run_handler :=
  cbv [mbind M_bind mret M_ret get_db find_one get_documents create_document
       log put_store raise try_except as_500 db_truthy negb db trace];
  cbn [db trace fst snd].

(** ** Sample data for the examples *)

(** A stand-in for [EmailStr] in the examples: it accepts the strings with
    an at sign after a non-empty local part. *)
Definition has_at (s : string) : bool :=
  bool_decide (split_head "@" s ≠ EmptyString ∧ split_head "@" s ≠ s).

Definition empty_store : store := Store ∅ 0.

(** The store after [POST /hotels/seed] on an empty store. *)
Definition seeded_store : store := seed_store SAMPLE_HOTELS empty_store.

(** What the claim on the city filter asks of a store and a supplied
    city. *)
Definition city_filter_exact (st : store) (c : string) : Prop :=
  (list_hotels (Some c) (World (Some st) [])).1 =
  Return (map serialize_doc (holding "city" (VStr c) (collection st "hotel"))).

(** A stored booking, for the examples of [serialize_doc]. *)
Definition stored_booking : doc :=
  <["_id" := VObjectId (assign_id 7)]>
    (<["created_at" := VDateTime (DateTime (Date 2025 5 30) 9 15 0 0)]>
       (Booking.model_dump
          (Booking.Build "a@b.com" "000000000000000000000001"
             (Date 2025 6 1) (Date 2025 6 3) 2 None))).

(** What the claim on a missing hotel asks of a request: if its
    [hotel_id] is the identifier of no hotel document, the answer is 404
    and the store is as it was. *)
Definition identifies_hotel (st : store) (hotel_id : string) : Prop :=
  ∃ oid d, ObjectId_of_str hotel_id = Some oid
           ∧ d ∈ collection st "hotel" ∧ d !! "_id" = Some (VObjectId oid).

Definition missing_hotel_is_404 (valid_email : string → bool)
    (st : store) (req : BookingRequest.t) : Prop :=
  ¬ identifies_hotel st (BookingRequest.hotel_id req) →
  let r := respond (create_booking valid_email req) (World (Some st) []) in
  status r.1 = 404 ∧ db r.2 = Some st.

(** What the claim on the number of guests asks of a request with 0 or 11
    guests: a refusal that names the field, and no call on the store. *)
Definition rejected_before_store (valid_email : string → bool)
    (w : world) (req : BookingRequest.t) : Prop :=
  let r := post_bookings valid_email req w in
  trace r.2 = trace w
  ∧ ∃ errors, r.1 = Unprocessable errors ∧ "guests" ∈ fields_of errors.

(** A booking request for the second seeded hotel. *)
Definition sample_request (guests : Z) : BookingRequest.t :=
  BookingRequest.Build "a@b.com" "000000000000000000000001"
    (Date 2025 6 1) (Date 2025 6 3) guests None.

(** A booking request whose [hotel_id] is no identifier. *)
Definition malformed_request : BookingRequest.t :=
  BookingRequest.Build "a@b.com" "urban-chic"
    (Date 2025 6 1) (Date 2025 6 3) 2 None.

(** A booking request for a hotel the seeded store does not hold, with a
    stay that ends before it starts. *)
Definition unknown_hotel_request (guests : Z) : BookingRequest.t :=
  BookingRequest.Build "a@b.com" "0000000000000000000000ff"
    (Date 2025 6 3) (Date 2025 6 1) guests None.

(** What the claim on seeding asks of the store it leaves: one hotel
    under each sample name. *)
Definition one_per_sample_name (st : store) : Prop :=
  ∀ h, h ∈ SAMPLE_HOTELS → length (named (Hotel.name h) st) = 1%nat.

(** A store in which a sample name is already borne by two hotels. *)
Definition twice_chic_store : store :=
  Store {[ "hotel" :=
             [ <["_id" := VObjectId (assign_id 0)]>
                 (Hotel.model_dump
                    (Hotel.Build "Urban Chic Hotel" "New York" "First entry." []
                       (Float "299.0") (Float "4.7")));
               <["_id" := VObjectId (assign_id 1)]>
                 (Hotel.model_dump
                    (Hotel.Build "Urban Chic Hotel" "Boston" "Second entry." []
                       (Float "150.0") (Float "4.0"))) ] ]} 2.

(** The store a handler leaves, if there is one. *)
Definition store_after {A} (r : A * world) : option store := db r.2.

(** The documents the seeding loop stores for [hs] when none of their
    names is taken, the first under the identifier numbered [n]. *)
Definition seeded_docs (n : N) (hs : list Hotel.t) : list doc :=
  imap (λ i h, <["_id" := VObjectId (assign_id (n + N.of_nat i))]> (Hotel.model_dump h)) hs.

(** A store with one registered user, for the examples of [login]. *)
Definition one_user_store : store :=
  (store_insert empty_store "user"
     (user_data (LoginRequest.Build (Some "Ann") "ann@x.org" "pw"))).2.

(** A store whose only booking already covers the stay asked for by
    [overlapping_request]. *)
Definition booked_store : store :=
  (store_insert seeded_store "booking"
     (Booking.model_dump (Booking_of (sample_request 2)))).2.

(** A request for the booked hotel whose stay ends before it starts and
    falls inside the stay already booked. *)
Definition overlapping_request : BookingRequest.t :=
  BookingRequest.Build "c@d.com" "000000000000000000000001"
    (Date 2025 6 3) (Date 2025 6 2) 10 (Some "late arrival").

(** ** Notions used in the further properties *)

(** A store call that only reads. *)
Definition is_read (op : store_op) : Prop :=
  match op with
  | OpFindOne _ _ | OpFind _ _ => True
  | OpInsert _ _ => False
  end.

(** A store call that inserts into the collection [name]. *)
Definition is_insert_into (name : string) (op : store_op) : Prop :=
  match op with
  | OpInsert n _ => n = name
  | _ => False
  end.

(** The sample hotels whose name no hotel of the store bears. *)
Definition missing_samples (st : store) : list Hotel.t :=
  filter (λ h, named (Hotel.name h) st = []) SAMPLE_HOTELS.

(** The hotels of a store under their identifier. *)
Definition hotel_with_id (o : ObjectId) (st : store) : list doc :=
  holding "_id" (VObjectId o) (collection st "hotel").

(** The hotel collection a world shows, if it has a store. *)
Definition hotels_of (w : world) : option (list doc) :=
  (λ st, collection st "hotel") <$> db w.

(** The character [c] does not occur in [s]. *)
Definition free_of (c : ascii) (s : string) : Prop :=
  string_forallb (λ x, negb (bool_decide (x = c))) s = true.

(** The second sample hotel, and the document seeding an empty store
    leaves for it. *)
Definition urban_chic : Hotel.t :=
  Hotel.Build "Urban Chic Hotel" "New York"
    "Boutique hotel in the heart of the city with skyline views."
    [ "https://images.unsplash.com/photo-1522708323590-d24dbb6b0267";
      "https://images.unsplash.com/photo-1509057199576-632a47484ece" ]
    (Float "299.0") (Float "4.7").

Definition urban_chic_doc : doc :=
  <["_id" := VObjectId (Oid "000000000000000000000001")]> (Hotel.model_dump urban_chic).

(** ** Notions used for identifiers that are not 24 hex digits *)

(** The string is 24 hex digits. *)
Definition is_24_hex (s : string) : bool :=
  (String.length s =? 24)%nat && string_forallb is_hex_digit s.

(** What the claim on identifiers that are not 24 hex digits asks of a
    request: the answer 500. *)
Definition not_24_hex_is_500 (valid_email : string → bool)
    (st : store) (req : BookingRequest.t) : Prop :=
  is_24_hex (BookingRequest.hotel_id req) = false →
  status (respond (create_booking valid_email req) (World (Some st) [])).1 = 500.

(** A booking request whose [hotel_id] is 24 characters, eight hex pairs
    each followed by a space. *)
Definition spaced_request : BookingRequest.t :=
  BookingRequest.Build "a@b.com" "00 00 00 00 00 00 00 01 "
    (Date 2025 6 1) (Date 2025 6 3) 2 None.

(** A document that was never stored: no [_id], and a date under [id]. *)
Definition unstored_doc : doc :=
  {[ "id" := VDate (Date 2025 1 2); "note" := VStr "draft" ]}.

(** * Properties *)

(** ** Strings and dates *)

Lemma length_append (s1 s2 : string) :
  String.length (s1 ++ s2) = (String.length s1 + String.length s2)%nat.
Proof. induction s1 as [|c s1 IH]; simpl; [done|]. by rewrite IH. Qed.

Lemma zfill_length w n : String.length (zfill w n) = w.
Proof.
  revert n. induction w as [|w IH]; intros n; simpl; [done|].
  rewrite length_append, IH. simpl. lia.
Qed.

Lemma date_isoformat_length d : String.length (date_isoformat d) = 10%nat.
Proof.
  unfold date_isoformat. rewrite !length_append, !zfill_length. done.
Qed.

(** ** The store *)

Lemma matches_single k v (d : doc) : matches [(k, v)] d = true ↔ d !! k = Some v.
Proof.
  unfold matches. simpl. rewrite andb_true_r. apply bool_decide_eq_true.
Qed.

Lemma store_find_single st name k v :
  store_find st name [(k, v)] = holding k v (collection st name).
Proof.
  unfold store_find, holding. apply list_filter_iff. intros d. apply matches_single.
Qed.

Lemma store_find_all st name : store_find st name [] = collection st name.
Proof.
  unfold store_find. induction (collection st name) as [|d ds IH]; [done|].
  rewrite filter_cons_True; [|done]. by rewrite IH.
Qed.

Lemma store_find_one_single st name k v :
  store_find_one st name [(k, v)] = head (holding k v (collection st name)).
Proof. unfold store_find_one. f_equal. apply (store_find_single st name k v). Qed.

Lemma holding_nil_iff k v ds : holding k v ds = [] ↔ ∀ d, d ∈ ds → d !! k ≠ Some v.
Proof.
  unfold holding. split.
  - intros H d Hd Hk. eapply (filter_nil_not_elem_of _ _ d); eauto.
  - intros H. induction ds as [|d ds IH]; [done|].
    rewrite filter_cons_False.
    + apply IH. intros d' Hd'. apply H. by right.
    + apply H. by left.
Qed.

Lemma holding_elem_of k v ds d : d ∈ holding k v ds ↔ d !! k = Some v ∧ d ∈ ds.
Proof. unfold holding. by rewrite list_elem_of_filter. Qed.

(** A document found under a filter on one field is not the empty dict,
    so it passes [if not ...]. *)
Lemma found_truthy st name k v :
  doc_truthy (store_find_one st name [(k, v)]) =
  bool_decide (holding k v (collection st name) ≠ []).
Proof.
  rewrite store_find_one_single.
  destruct (holding k v (collection st name)) as [|d ds] eqn:E; simpl; [done|].
  assert (Hd : d ∈ holding k v (collection st name)) by (rewrite E; by left).
  apply holding_elem_of in Hd as [Hk _].
  rewrite bool_decide_eq_false_2; [|by intros ->; rewrite lookup_empty in Hk].
  done.
Qed.

Lemma collection_insert st name d :
  collection (store_insert st name d).2 name =
  collection st name ++ [<["_id" := VObjectId (assign_id (next_id st))]> d].
Proof. unfold collection at 1. simpl. by rewrite lookup_insert_eq. Qed.

Lemma collection_insert_ne st name name' d :
  name ≠ name' →
  collection (store_insert st name d).2 name' = collection st name'.
Proof. intros H. unfold collection. simpl. by rewrite lookup_insert_ne. Qed.

Lemma holding_app k v ds1 ds2 :
  holding k v (ds1 ++ ds2) = holding k v ds1 ++ holding k v ds2.
Proof. apply filter_app. Qed.

(** ** serialize_doc *)

Lemma to_iso_plain v : has_isoformat (to_iso v) = false.
Proof. by destruct v. Qed.

Lemma convert_dates_from (b m : doc) :
  m ⊆ b →
  ∀ k, map_fold (λ k v acc,
         if has_isoformat v
         then match isoformat v with
              | Some s => <[k := VStr s]> acc
              | None => acc
              end
         else acc) b m !! k
       = match m !! k with
         | Some v => Some (to_iso v)
         | None => b !! k
         end.
Proof.
  apply (map_fold_weak_ind (λ r m, m ⊆ b → ∀ k, r !! k = match m !! k with
                                     | Some v => Some (to_iso v)
                                     | None => b !! k
                                     end)).
  - intros _ k. by rewrite lookup_empty.
  - intros i x m' r Hi IH Hsub k.
    assert (Hb : b !! i = Some x).
    { eapply lookup_weaken; [|exact Hsub]. apply lookup_insert_eq. }
    assert (Hm' : m' ⊆ b).
    { etrans; [|exact Hsub]. by apply insert_subseteq. }
    specialize (IH Hm').
    destruct (decide (k = i)) as [->|Hne].
    + rewrite lookup_insert_eq.
      destruct x; simpl; rewrite ?lookup_insert_eq, ?IH, ?Hi, ?Hb; done.
    + rewrite lookup_insert_ne; [|done].
      destruct x; simpl; rewrite ?lookup_insert_ne, ?IH by done; done.
Qed.

Lemma convert_dates_lookup (d : doc) k : convert_dates d !! k = to_iso <$> d !! k.
Proof.
  unfold convert_dates. rewrite convert_dates_from; [|done].
  by destruct (d !! k).
Qed.

Lemma convert_dates_fmap (d : doc) : convert_dates d = to_iso <$> d.
Proof. apply map_eq. intros k. by rewrite convert_dates_lookup, lookup_fmap. Qed.

Lemma serialize_doc_eq (d : doc) : serialize_doc d = to_iso <$> rename_id d.
Proof.
  unfold serialize_doc, rename_id. case_bool_decide as He.
  - subst d. rewrite lookup_empty. by rewrite fmap_empty.
  - apply convert_dates_fmap.
Qed.

Lemma serialize_doc_lookup (d : doc) k :
  serialize_doc d !! k = to_iso <$> rename_id d !! k.
Proof. by rewrite serialize_doc_eq, lookup_fmap. Qed.

(** ** list_hotels *)

Lemma list_hotels_run st tr city :
  list_hotels city (World (Some st) tr) =
  let flt : query :=
    if truthy_str city then [("city", from_option VStr VNone city)] else [] in
  (Return (map serialize_doc (store_find st "hotel" flt)),
   World (Some st) (tr ++ [OpFind "hotel" flt])).
Proof. reflexivity. Qed.

(** C5: [serialize_doc] drops the store's [_id] and puts its string
    rendering under [id]; every other field, and [id] itself in a document
    that has no [_id], comes out as its ISO-8601 string if it is a date or
    a datetime (a date as the ten characters YYYY-MM-DD) and as it is
    otherwise, so that no field of the result is a date any more;
    [list_hotels], the one handler that returns stored documents, returns
    them serialised in this way. *)
Theorem serialize_doc_spec (d : doc) :
  serialize_doc d !! "_id" = None
  ∧ (∀ v, d !! "_id" = Some v → serialize_doc d !! "id" = Some (VStr (str v)))
  ∧ (∀ k, k ≠ "_id" → (k = "id" → d !! "_id" = None) →
       serialize_doc d !! k =
       (λ v, match isoformat v with Some s => VStr s | None => v end) <$> d !! k)
  ∧ (∀ k x, serialize_doc d !! k = Some x → has_isoformat x = false)
  ∧ (∀ x, isoformat (VDate x) = Some (date_isoformat x)
          ∧ String.length (date_isoformat x) = 10%nat)
  ∧ (∀ st tr city, ∃ hs,
       hs ⊆ collection st "hotel"
       ∧ (list_hotels city (World (Some st) tr)).1 = Return (map serialize_doc hs)).
Proof.
  split_and!.
  - rewrite serialize_doc_lookup. unfold rename_id.
    destruct (d !! "_id") eqn:E.
    + by rewrite lookup_insert_ne, lookup_delete_eq.
    + by rewrite E.
  - intros v Hv. rewrite serialize_doc_lookup. unfold rename_id. rewrite Hv.
    by rewrite lookup_insert_eq.
  - intros k H1 H2. rewrite serialize_doc_lookup. unfold rename_id.
    destruct (d !! "_id") eqn:E.
    + rewrite lookup_insert_ne, lookup_delete_ne; [done|done|].
      intros <-. by specialize (H2 eq_refl).
    + done.
  - intros k x. rewrite serialize_doc_lookup.
    destruct (rename_id d !! k); simpl; [|done].
    intros [= <-]. apply to_iso_plain.
  - intros x. split; [done|apply date_isoformat_length].
  - intros st tr city. rewrite list_hotels_run. simpl.
    eexists. split; [|done].
    unfold store_find. intros h Hh. apply list_elem_of_filter in Hh. tauto.
Qed.

(** C4 (amended): with a non-empty [city], [list_hotels] returns, serialised
    and in store order, exactly the hotels whose [city] field is that
    string; without [city] it returns every hotel of the store. *)
Theorem list_hotels_city_filter (st : store) (tr : list store_op) (c : string) :
  c ≠ EmptyString →
  (list_hotels (Some c) (World (Some st) tr)).1 =
    Return (map serialize_doc (holding "city" (VStr c) (collection st "hotel")))
  ∧ (list_hotels None (World (Some st) tr)).1 =
    Return (map serialize_doc (collection st "hotel")).
Proof.
  intros Hc. rewrite !list_hotels_run. simpl. split.
  - destruct c as [|a c]; [done|]. simpl. by rewrite store_find_single.
  - by rewrite store_find_all.
Qed.

(** C10: an empty [city] is treated as no [city] at all: [list_hotels]
    then runs as it does without the parameter and returns every hotel of
    the store. *)
Theorem list_hotels_empty_city (w : world) (st : store) (tr : list store_op) :
  list_hotels (Some EmptyString) w = list_hotels None w
  ∧ (list_hotels (Some EmptyString) (World (Some st) tr)).1 =
    Return (map serialize_doc (collection st "hotel")).
Proof.
  split; [reflexivity|].
  rewrite list_hotels_run. simpl. by rewrite store_find_all.
Qed.

(** ** create_booking *)

Section CreateBooking.

Variable valid_email : string → bool.

(** The handler, case by case, on a configured store. *)
Lemma create_booking_run req st tr :
  create_booking valid_email req (World (Some st) tr) =
  match ObjectId_of_str (BookingRequest.hotel_id req) with
  | None =>
      (Raise (HTTPException 500 (StrOf (InvalidId (BookingRequest.hotel_id req)))),
       World (Some st) tr)
  | Some oid =>
      let flt := [("_id", VObjectId oid)] in
      let tr1 := tr ++ [OpFindOne "hotel" flt] in
      if doc_truthy (store_find_one st "hotel" flt)
      then
        match Booking_errors valid_email req with
        | [] =>
            let data := Booking.model_dump (Booking_of req) in
            let r := store_insert st "booking" data in
            (Return {[ "id" := VStr (hex r.1); "message" := VStr "Booking confirmed" ]},
             World (Some r.2) (tr1 ++ [OpInsert "booking" data]))
        | e :: es =>
            (Raise (HTTPException 500 (StrOf (ValidationError "Booking" (e :: es)))),
             World (Some st) tr1)
        end
      else (Raise (HTTPException 404 (Message "Hotel not found")), World (Some st) tr1)
  end.
Proof.
  unfold create_booking, ObjectId_new, Booking_of_request, Booking_of.
  run_handler.
  destruct (ObjectId_of_str (BookingRequest.hotel_id req)) as [oid|]; [|done].
  run_handler.
  destruct (doc_truthy (store_find_one st "hotel" [("_id", VObjectId oid)])); [|done].
  destruct (Booking_errors valid_email req); done.
Qed.

Lemma create_booking_no_db req tr :
  create_booking valid_email req (World None tr) =
  (Raise (HTTPException 500 (StrOf (Exception "Database not configured"))),
   World None tr).
Proof. reflexivity. Qed.

Lemma hotel_lookup_absent st oid :
  (∀ d, d ∈ collection st "hotel" → d !! "_id" ≠ Some (VObjectId oid)) →
  doc_truthy (store_find_one st "hotel" [("_id", VObjectId oid)]) = false.
Proof.
  intros H. rewrite found_truthy. apply bool_decide_eq_false_2.
  intros Hne. apply Hne. by apply holding_nil_iff.
Qed.

Lemma hotel_lookup_present st oid d :
  d ∈ collection st "hotel" → d !! "_id" = Some (VObjectId oid) →
  doc_truthy (store_find_one st "hotel" [("_id", VObjectId oid)]) = true.
Proof.
  intros Hd Hid. rewrite found_truthy. apply bool_decide_eq_true_2.
  intros Hnil. eapply holding_nil_iff in Hnil; eauto.
Qed.

Lemma Booking_errors_guests req :
  valid_email (BookingRequest.user_email req) = true →
  Booking_errors valid_email req =
  check (1 <=? BookingRequest.guests req)%Z "guests" (GreaterEqual 1)
  ++ check (BookingRequest.guests req <=? 10)%Z "guests" (LessEqual 10).
Proof. intros H. unfold Booking_errors. by rewrite H. Qed.

Lemma Booking_errors_in_range req :
  valid_email (BookingRequest.user_email req) = true →
  1 ≤ BookingRequest.guests req ≤ 10 →
  Booking_errors valid_email req = [].
Proof.
  intros H [H1 H2]. rewrite Booking_errors_guests; [|done].
  apply Z.leb_le in H1, H2. by rewrite H1, H2.
Qed.

Lemma Booking_errors_out_of_range req :
  BookingRequest.guests req < 1 ∨ 10 < BookingRequest.guests req →
  Booking_errors valid_email req ≠ [].
Proof.
  intros H. unfold Booking_errors, check.
  destruct (valid_email _); [|done]. simpl.
  destruct H as [H|H].
  - apply Z.leb_gt in H. by rewrite H.
  - apply Z.leb_gt in H. rewrite H. by destruct (1 <=? _)%Z.
Qed.

(** C2 (amended): when [hotel_id] is a string that [ObjectId] accepts and
    no document of the hotel collection bears the identifier it gives, the
    handler answers 404 "Hotel not found" after its one lookup, and the
    store, hence the booking collection, is exactly as before. *)
Theorem create_booking_unknown_hotel (req : BookingRequest.t) (st : store)
    (tr : list store_op) (oid : ObjectId) :
  ObjectId_of_str (BookingRequest.hotel_id req) = Some oid →
  (∀ d, d ∈ collection st "hotel" → d !! "_id" ≠ Some (VObjectId oid)) →
  respond (create_booking valid_email req) (World (Some st) tr) =
  (Failed 404 (Message "Hotel not found"),
   World (Some st) (tr ++ [OpFindOne "hotel" [("_id", VObjectId oid)]])).
Proof.
  intros Hoid Habs. unfold respond. rewrite create_booking_run, Hoid. simpl.
  by rewrite (hotel_lookup_absent _ _ Habs).
Qed.

(** C7: a request with a valid email, an existing hotel and 1 to 10 guests
    is confirmed and stored as the last booking, whatever its two dates are
    (the stay may end on or before the day it starts) and whatever bookings
    the store already holds. *)
Theorem create_booking_ignores_dates (req : BookingRequest.t) (st : store)
    (tr : list store_op) (oid : ObjectId) (hotel : doc) :
  valid_email (BookingRequest.user_email req) = true →
  ObjectId_of_str (BookingRequest.hotel_id req) = Some oid →
  hotel ∈ collection st "hotel" →
  hotel !! "_id" = Some (VObjectId oid) →
  1 ≤ BookingRequest.guests req ≤ 10 →
  ∃ st' tr',
    post_bookings valid_email req (World (Some st) tr) =
      (Ok {[ "id" := VStr (hex (assign_id (next_id st)));
             "message" := VStr "Booking confirmed" ]},
       World (Some st') tr')
    ∧ collection st' "booking" =
      collection st "booking"
      ++ [<["_id" := VObjectId (assign_id (next_id st))]>
            (Booking.model_dump (Booking_of req))].
Proof.
  intros Hmail Hoid Hin Hid Hguests.
  unfold post_bookings, route, BookingRequest_errors, check. rewrite Hmail.
  unfold respond. rewrite create_booking_run, Hoid. simpl.
  rewrite (hotel_lookup_present _ _ _ Hin Hid).
  rewrite (Booking_errors_in_range _ Hmail Hguests).
  eexists _, _. split; [reflexivity|].
  apply collection_insert.
Qed.

(** C9 (amended): when [hotel_id] is a string that [ObjectId] refuses (it
    has not 24 characters, or is not made of pairs of hex digits with
    whitespace at most before a pair) the handler answers 500, never 404,
    and leaves the world as it found it: no store call is made and no
    booking is created. *)
Theorem create_booking_malformed_id (req : BookingRequest.t) (w : world) :
  ObjectId_of_str (BookingRequest.hotel_id req) = None →
  ∃ d, respond (create_booking valid_email req) w = (Failed 500 d, w).
Proof.
  intros Hoid. destruct w as [[st|] tr]; unfold respond.
  - rewrite create_booking_run, Hoid. eauto.
  - rewrite create_booking_no_db. eauto.
Qed.

(** With 0 or 11 guests (any number outside 1..10) and a [hotel_id] that
    [ObjectId] accepts, the handler still looks the hotel up; it then fails with
    404 or 500 and writes nothing. *)
Lemma create_booking_out_of_range req st tr oid :
  valid_email (BookingRequest.user_email req) = true →
  ObjectId_of_str (BookingRequest.hotel_id req) = Some oid →
  BookingRequest.guests req < 1 ∨ 10 < BookingRequest.guests req →
  ∃ s d,
    post_bookings valid_email req (World (Some st) tr) =
      (Failed s d, World (Some st) (tr ++ [OpFindOne "hotel" [("_id", VObjectId oid)]]))
    ∧ (s = 404 ∨ s = 500).
Proof.
  intros Hmail Hoid Hguests.
  unfold post_bookings, route, BookingRequest_errors, check. rewrite Hmail.
  unfold respond. rewrite create_booking_run, Hoid. simpl.
  destruct (doc_truthy _); [|eauto].
  pose proof (Booking_errors_out_of_range req Hguests) as Hne.
  destruct (Booking_errors valid_email req); [done|eauto].
Qed.

End CreateBooking.

(** ** login *)

Lemma user_data_email req :
  user_data req !! "email" = Some (VStr (LoginRequest.email req)).
Proof. reflexivity. Qed.

Lemma user_data_name req :
  user_data req !! "name" =
  Some (VStr (or_str (LoginRequest.name req) (split_head "@" (LoginRequest.email req)))).
Proof. reflexivity. Qed.

(** The handler, case by case, on a configured store. *)
Lemma login_run req st tr :
  login req (World (Some st) tr) =
  let flt := [("email", VStr (LoginRequest.email req))] in
  let tr1 := tr ++ [OpFindOne "user" flt] in
  let answer (o : option doc) (w : world) : outcome profile * world :=
    match o with
    | Some u =>
        (Return {| profile_name := default (item (user_data req) "name") (u !! "name");
                   profile_email := LoginRequest.email req |}, w)
    | None =>
        (Raise (HTTPException 500
           (StrOf (AttributeError "'NoneType' object has no attribute 'get'"))), w)
    end in
  if doc_truthy (store_find_one st "user" flt)
  then answer (store_find_one st "user" flt) (World (Some st) tr1)
  else
    let r := store_insert st "user" (user_data req) in
    answer (store_find_one r.2 "user" flt)
      (World (Some r.2) ((tr1 ++ [OpInsert "user" (user_data req)]) ++ [OpFindOne "user" flt])).
Proof.
  unfold login. run_handler.
  destruct (doc_truthy (store_find_one st "user" _)).
  - by destruct (store_find_one st "user" _).
  - run_handler. by destruct (store_find_one _ "user" _).
Qed.

Lemma login_existing req st tr u rest :
  holding "email" (VStr (LoginRequest.email req)) (collection st "user") = u :: rest →
  login req (World (Some st) tr) =
  (Return {| profile_name := default (item (user_data req) "name") (u !! "name");
             profile_email := LoginRequest.email req |},
   World (Some st) (tr ++ [OpFindOne "user" [("email", VStr (LoginRequest.email req))]])).
Proof.
  intros H. rewrite login_run. cbv zeta.
  rewrite found_truthy, store_find_one_single, H.
  by rewrite bool_decide_eq_true_2.
Qed.

Lemma login_new req st tr :
  holding "email" (VStr (LoginRequest.email req)) (collection st "user") = [] →
  let flt := [("email", VStr (LoginRequest.email req))] in
  let r := store_insert st "user" (user_data req) in
  login req (World (Some st) tr) =
  (Return {| profile_name := item (user_data req) "name";
             profile_email := LoginRequest.email req |},
   World (Some r.2)
     ((tr ++ [OpFindOne "user" flt]) ++ [OpInsert "user" (user_data req)]
         ++ [OpFindOne "user" flt]))
  ∧ holding "email" (VStr (LoginRequest.email req)) (collection r.2 "user") =
    [<["_id" := VObjectId r.1]> (user_data req)].
Proof.
  intros H flt r.
  assert (Hnew : holding "email" (VStr (LoginRequest.email req)) (collection r.2 "user")
                 = [<["_id" := VObjectId r.1]> (user_data req)]).
  { unfold r. rewrite collection_insert, holding_app, H.
    unfold holding. rewrite filter_cons_True; [done|].
    rewrite lookup_insert_ne; [|done]. apply user_data_email. }
  split; [|exact Hnew].
  rewrite login_run. cbv zeta.
  rewrite found_truthy, H. rewrite bool_decide_eq_false_2; [|by intros []].
  fold r. rewrite store_find_one_single, Hnew.
  cbn [head]. rewrite lookup_insert_ne; [|done]. rewrite user_data_name.
  unfold item. rewrite user_data_name. cbn [default]. by rewrite <- app_assoc.
Qed.

(** C8: [login] finds or creates by email.  When the user collection holds
    documents with the request's email, the first of them gives the
    profile (its name, the request's email), and the store is left as it
    was after the one lookup; when it holds none, exactly one document,
    [user_data] under a fresh [_id], is appended to the user collection and
    is then the only one with that email, the other collections being
    untouched; either way the handler returns a profile whose email is the
    request's. *)
Theorem login_find_or_create (req : LoginRequest.t) (st : store) (tr : list store_op) :
  let e := LoginRequest.email req in
  let users := collection st "user" in
  (∀ u rest, holding "email" (VStr e) users = u :: rest →
     login req (World (Some st) tr) =
     (Return {| profile_name := default (item (user_data req) "name") (u !! "name");
                profile_email := e |},
      World (Some st) (tr ++ [OpFindOne "user" [("email", VStr e)]])))
  ∧ (holding "email" (VStr e) users = [] →
     ∃ st' tr' name,
       login req (World (Some st) tr) =
         (Return {| profile_name := VStr name; profile_email := e |}, World (Some st') tr')
       ∧ collection st' "user" =
         users ++ [<["_id" := VObjectId (assign_id (next_id st))]> (user_data req)]
       ∧ holding "email" (VStr e) (collection st' "user") =
         [<["_id" := VObjectId (assign_id (next_id st))]> (user_data req)]
       ∧ (∀ other, other ≠ "user" → collection st' other = collection st other))
  ∧ (∃ p w', login req (World (Some st) tr) = (Return p, w') ∧ profile_email p = e).
Proof.
  intros e users. split_and!.
  - intros u rest H. by apply (login_existing req st tr u rest).
  - intros H. destruct (login_new req st tr H) as [Hrun Hone].
    eexists _, _, _. split_and!.
    + rewrite Hrun. unfold item. rewrite user_data_name. reflexivity.
    + apply collection_insert.
    + exact Hone.
    + intros other Hother. by apply collection_insert_ne.
  - destruct (holding "email" (VStr e) users) as [|u rest] eqn:H.
    + destruct (login_new req st tr H) as [Hrun _]. rewrite Hrun. eauto.
    + rewrite (login_existing req st tr u rest H). eauto.
Qed.

(** ** contact *)

Section Contact.

Variable valid_email : string → bool.

Lemma contact_run m st tr :
  contact m (World (Some st) tr) =
  let data := ContactMessage.model_dump m in
  let r := store_insert st "contactmessage" data in
  (Return {[ "id" := VStr (hex r.1); "status" := VStr "received" ]},
   World (Some r.2) (tr ++ [OpInsert "contactmessage" data])).
Proof. reflexivity. Qed.

Lemma ContactMessage_errors_message m :
  valid_email (ContactMessage.email m) = true →
  ContactMessage_errors valid_email m =
  check (5 <=? String.length (ContactMessage.message m))%nat "message" (MinLength 5).
Proof. intros H. unfold ContactMessage_errors. by rewrite H. Qed.

(** C6: with a valid email, a contact message is refused exactly when its
    [message] has fewer than 5 characters.  The refusal is a 422 on the
    field [message] that leaves the world untouched (no store call); a
    message of 5 characters or more is stored as the last document of the
    contactmessage collection and acknowledged with its identifier. *)
Theorem contact_min_length (m : ContactMessage.t) (w : world) :
  valid_email (ContactMessage.email m) = true →
  ((String.length (ContactMessage.message m) < 5)%nat →
     post_contact valid_email m w = (Unprocessable [("message", MinLength 5)], w))
  ∧ ((5 ≤ String.length (ContactMessage.message m))%nat →
     ∀ st tr, w = World (Some st) tr →
     ∃ st',
       post_contact valid_email m w =
         (Ok {[ "id" := VStr (hex (assign_id (next_id st))); "status" := VStr "received" ]},
          World (Some st') (tr ++ [OpInsert "contactmessage" (ContactMessage.model_dump m)]))
       ∧ collection st' "contactmessage" =
         collection st "contactmessage"
         ++ [<["_id" := VObjectId (assign_id (next_id st))]> (ContactMessage.model_dump m)])
  ∧ ((∃ errors, (post_contact valid_email m w).1 = Unprocessable errors)
     ↔ (String.length (ContactMessage.message m) < 5)%nat).
Proof.
  intros Hmail. unfold post_contact, route.
  rewrite (ContactMessage_errors_message _ Hmail). unfold check.
  destruct (5 <=? String.length (ContactMessage.message m))%nat eqn:Hlen.
  - apply Nat.leb_le in Hlen. split_and!.
    + lia.
    + intros _ st tr ->. unfold respond. rewrite contact_run. simpl.
      eexists. split; [reflexivity|]. apply collection_insert.
    + split; [|lia]. intros [errors H]. unfold respond in H.
      destruct (contact m w) as [[a|[]] w']; simpl in H; discriminate.
  - apply Nat.leb_gt in Hlen. split_and!.
    + done.
    + lia.
    + split; [done|]. intros _. by eexists.
Qed.

End Contact.

(** ** seed_hotels *)

Lemma seed_one_run h st tr :
  ∃ tr', seed_one h (World (Some st) tr) = (Return tt, World (Some (seed_store_one h st)) tr').
Proof.
  unfold seed_one, seed_store_one. run_handler.
  destruct (doc_truthy (store_find_one st "hotel" _)); run_handler; eauto.
Qed.

Lemma seed_loop_run hs st tr :
  ∃ tr', for_each hs seed_one (World (Some st) tr) =
         (Return tt, World (Some (seed_store hs st)) tr').
Proof.
  revert st tr. induction hs as [|h hs IH]; intros st tr; simpl.
  - by eexists.
  - destruct (seed_one_run h st tr) as [tr1 H1].
    destruct (IH (seed_store_one h st) tr1) as [tr2 H2].
    exists tr2. unfold mbind, M_bind. by rewrite H1.
Qed.

Lemma seed_hotels_run st tr :
  ∃ tr', seed_hotels (World (Some st) tr) =
         (Return {[ "status" := VStr "ok" ]},
          World (Some (seed_store SAMPLE_HOTELS st)) tr').
Proof.
  destruct (seed_loop_run SAMPLE_HOTELS st tr) as [tr' H].
  exists tr'. unfold seed_hotels. run_handler. by rewrite H.
Qed.

Lemma seed_hotels_no_db tr :
  seed_hotels (World None tr) =
  (Raise (HTTPException 500 (StrOf (Exception "Database not configured"))),
   World None tr).
Proof. reflexivity. Qed.

Lemma model_dump_name h : Hotel.model_dump h !! "name" = Some (VStr (Hotel.name h)).
Proof. reflexivity. Qed.

Lemma named_insert n h st :
  named n (store_insert st "hotel" (Hotel.model_dump h)).2 =
  named n st
  ++ (if decide (Hotel.name h = n)
      then [<["_id" := VObjectId (assign_id (next_id st))]> (Hotel.model_dump h)]
      else []).
Proof.
  unfold named. rewrite collection_insert, holding_app. f_equal.
  unfold holding. case_decide as Hn.
  - rewrite filter_cons_True; [done|].
    rewrite lookup_insert_ne; [|done]. by rewrite model_dump_name, Hn.
  - rewrite filter_cons_False; [done|].
    rewrite lookup_insert_ne; [|done]. rewrite model_dump_name. congruence.
Qed.

Lemma seed_store_one_found h st :
  named (Hotel.name h) st ≠ [] → seed_store_one h st = st.
Proof.
  intros H. unfold seed_store_one. rewrite found_truthy.
  by rewrite bool_decide_eq_true_2.
Qed.

Lemma seed_store_one_new h st :
  named (Hotel.name h) st = [] →
  seed_store_one h st = (store_insert st "hotel" (Hotel.model_dump h)).2.
Proof.
  intros H. unfold seed_store_one. rewrite found_truthy.
  rewrite bool_decide_eq_false_2; [done|]. by intros [].
Qed.

(** One turn of the loop: the hotels under the turn's name are as before
    if there were some and the new document alone otherwise; the hotels
    under any other name are as before. *)
Lemma named_seed_store_one n h st :
  named n (seed_store_one h st) =
  if decide (Hotel.name h = n ∧ named n st = [])
  then [<["_id" := VObjectId (assign_id (next_id st))]> (Hotel.model_dump h)]
  else named n st.
Proof.
  destruct (decide (named (Hotel.name h) st = [])) as [Hnil|Hsome].
  - rewrite seed_store_one_new, named_insert; [|done].
    repeat case_decide; destruct_and?; subst; try done.
    + by rewrite Hnil.
    + exfalso. tauto.
    + by rewrite app_nil_r.
  - rewrite seed_store_one_found; [|done].
    case_decide as H; [|done]. destruct H as [<- ?]. done.
Qed.

Lemma named_seed_store_one_length n h st :
  (length (named n st) ≤ length (named n (seed_store_one h st)))%nat
  ∧ ((length (named n st) ≤ 1)%nat → (length (named n (seed_store_one h st)) ≤ 1)%nat)
  ∧ (Hotel.name h = n → (1 ≤ length (named n (seed_store_one h st)))%nat).
Proof.
  rewrite named_seed_store_one. case_decide as H.
  - destruct H as [_ ->]. simpl. lia.
  - split_and!; [lia|lia|].
    intros Hn. destruct (named n st); simpl; [|lia]. exfalso. by apply H.
Qed.

Lemma named_seed_store_length n hs st :
  (length (named n st) ≤ length (named n (seed_store hs st)))%nat
  ∧ ((length (named n st) ≤ 1)%nat → (length (named n (seed_store hs st)) ≤ 1)%nat)
  ∧ (n ∈ map Hotel.name hs → (1 ≤ length (named n (seed_store hs st)))%nat).
Proof.
  revert st. induction hs as [|h hs IH]; intros st; simpl.
  - split_and!; [lia|lia|]. by intros ?%elem_of_nil.
  - destruct (IH (seed_store_one h st)) as (IH1 & IH2 & IH3).
    destruct (named_seed_store_one_length n h st) as (H1 & H2 & H3).
    split_and!; [lia|auto|].
    intros [->|Hin]%elem_of_cons; [|auto].
    specialize (H3 eq_refl). lia.
Qed.

(** Seeding a store that already has a hotel under each of the names
    changes nothing. *)
Lemma seed_store_fixed hs st :
  (∀ h, h ∈ hs → named (Hotel.name h) st ≠ []) → seed_store hs st = st.
Proof.
  induction hs as [|h hs IH]; intros H; simpl; [done|].
  rewrite seed_store_one_found by (apply H; by left).
  apply IH. intros h' Hh'. apply H. by right.
Qed.

Lemma seed_store_named hs st h :
  h ∈ hs → named (Hotel.name h) (seed_store hs st) ≠ [].
Proof.
  intros Hin Hnil.
  destruct (named_seed_store_length (Hotel.name h) hs st) as (_ & _ & H).
  rewrite Hnil in H. simpl in H.
  assert (Hotel.name h ∈ map Hotel.name hs) as Hm.
  { apply list_elem_of_fmap. eauto. }
  specialize (H Hm). lia.
Qed.

Lemma seed_store_idempotent hs st :
  seed_store hs (seed_store hs st) = seed_store hs st.
Proof. apply seed_store_fixed. intros h Hh. by apply seed_store_named. Qed.

Lemma seed_store_fresh hs st :
  NoDup (map Hotel.name hs) →
  (∀ h, h ∈ hs → named (Hotel.name h) st = []) →
  collection (seed_store hs st) "hotel" =
  collection st "hotel" ++ seeded_docs (next_id st) hs.
Proof.
  unfold seeded_docs. revert st. induction hs as [|h hs IH]; intros st Hnd Hfree; simpl.
  - by rewrite app_nil_r.
  - apply NoDup_cons in Hnd as [Hh Hnd].
    rewrite seed_store_one_new by (apply Hfree; by left).
    rewrite IH; [|done|].
    + rewrite collection_insert, <- app_assoc. simpl. rewrite N.add_0_r.
      do 2 f_equal. apply imap_ext. intros i x _. simpl.
      do 3 f_equal. lia.
    + intros h' Hh'. rewrite named_insert, (Hfree h') by (by right).
      case_decide as Hn; [|done]. exfalso. apply Hh.
      rewrite Hn. apply list_elem_of_fmap. eauto.
Qed.

Lemma SAMPLE_HOTELS_names : NoDup (map Hotel.name SAMPLE_HOTELS).
Proof. apply (bool_decide_unpack _). by vm_compute. Qed.

(** C3 (amended): seeding twice leaves the store that seeding once leaves,
    from any world; on a configured store every sample name is borne by a
    hotel afterwards; if each sample name was borne by at most one hotel
    before, it is borne by exactly one afterwards; and from an empty hotel
    collection the hotels afterwards are exactly the three samples, each
    under its own identifier. *)
Theorem seed_hotels_idempotent (w : world) :
  store_after (seed_hotels (seed_hotels w).2) = store_after (seed_hotels w)
  ∧ (∀ st, db w = Some st →
       ∃ st', store_after (seed_hotels w) = Some st'
         ∧ (∀ h, h ∈ SAMPLE_HOTELS → (1 ≤ length (named (Hotel.name h) st'))%nat)
         ∧ ((∀ h, h ∈ SAMPLE_HOTELS → (length (named (Hotel.name h) st) ≤ 1)%nat) →
            one_per_sample_name st')
         ∧ (collection st "hotel" = [] →
            collection st' "hotel" = seeded_docs (next_id st) SAMPLE_HOTELS)).
Proof.
  destruct w as [[st|] tr]; unfold store_after.
  - destruct (seed_hotels_run st tr) as [tr1 H1]. rewrite H1. cbn [snd db].
    destruct (seed_hotels_run (seed_store SAMPLE_HOTELS st) tr1) as [tr2 H2].
    rewrite H2. cbn [snd db]. rewrite seed_store_idempotent. split; [reflexivity|].
    intros ? [= <-]. eexists. split; [reflexivity|].
    assert (Hname : ∀ h, h ∈ SAMPLE_HOTELS → Hotel.name h ∈ map Hotel.name SAMPLE_HOTELS).
    { intros h Hh. apply list_elem_of_fmap. eauto. }
    split_and!.
    + intros h Hh.
      by apply (named_seed_store_length (Hotel.name h) SAMPLE_HOTELS st), Hname.
    + intros Hle h Hh.
      destruct (named_seed_store_length (Hotel.name h) SAMPLE_HOTELS st) as (_ & H3 & H4).
      specialize (H3 (Hle h Hh)). specialize (H4 (Hname h Hh)). lia.
    + intros Hnil. rewrite seed_store_fresh.
      * by rewrite Hnil.
      * apply SAMPLE_HOTELS_names.
      * intros h _. unfold named. by rewrite Hnil.
  - rewrite seed_hotels_no_db. cbn [snd]. rewrite seed_hotels_no_db.
    split; [reflexivity|]. intros st [=].
Qed.

(** * The claims at concrete inputs *)

(** C1: a request with 0 guests for an existing hotel is refused only
    after the hotel was looked up in the store, and as a 500 built from the
    [Booking] validation error; a request with 11 guests for an unknown
    hotel is answered 404 "Hotel not found" after the same lookup, without
    a word on [guests].  Neither is rejected before the store is reached. *)
Theorem post_bookings_guests_checked_after_lookup :
  post_bookings has_at (sample_request 0) (World (Some seeded_store) []) =
    (Failed 500 (StrOf (ValidationError "Booking" [("guests", GreaterEqual 1)])),
     World (Some seeded_store)
       [OpFindOne "hotel" [("_id", VObjectId (Oid "000000000000000000000001"))]])
  ∧ post_bookings has_at (unknown_hotel_request 11) (World (Some seeded_store) []) =
    (Failed 404 (Message "Hotel not found"),
     World (Some seeded_store)
       [OpFindOne "hotel" [("_id", VObjectId (Oid "0000000000000000000000ff"))]])
  ∧ ¬ rejected_before_store has_at (World (Some seeded_store) []) (sample_request 0)
  ∧ ¬ rejected_before_store has_at (World (Some seeded_store) []) (unknown_hotel_request 11).
Proof.
  assert (H0 : post_bookings has_at (sample_request 0) (World (Some seeded_store) []) =
    (Failed 500 (StrOf (ValidationError "Booking" [("guests", GreaterEqual 1)])),
     World (Some seeded_store)
       [OpFindOne "hotel" [("_id", VObjectId (Oid "000000000000000000000001"))]]))
    by (vm_compute; reflexivity).
  assert (H11 : post_bookings has_at (unknown_hotel_request 11) (World (Some seeded_store) []) =
    (Failed 404 (Message "Hotel not found"),
     World (Some seeded_store)
       [OpFindOne "hotel" [("_id", VObjectId (Oid "0000000000000000000000ff"))]]))
    by (vm_compute; reflexivity).
  split_and!; [exact H0|exact H11| |].
  - intros [Htr _]. rewrite H0 in Htr. discriminate Htr.
  - intros [Htr _]. rewrite H11 in Htr. discriminate Htr.
Qed.

(** C2, as stated, fails: [malformed_request] names no hotel of the seeded
    store, and the answer is 500, not 404. *)
Lemma create_booking_malformed_not_404 :
  ¬ missing_hotel_is_404 has_at seeded_store malformed_request.
Proof.
  intros H. destruct H as [Hs _].
  - intros (oid & d & Hoid & _). discriminate Hoid.
  - vm_compute in Hs. discriminate Hs.
Qed.

(** C9, as stated, fails: the [hotel_id] of [spaced_request] is not 24
    hex digits, yet [ObjectId] accepts it (eight bytes), the hotel is looked
    up, and the answer is 404, not 500. *)
Lemma create_booking_spaced_id_not_500 :
  ¬ not_24_hex_is_500 has_at seeded_store spaced_request.
Proof.
  intros H. specialize (H eq_refl). vm_compute in H. discriminate H.
Qed.

(** C3, as stated, fails: in a store where two hotels already bear a
    sample name, seeding leaves both. *)
Lemma seed_hotels_keeps_duplicates :
  ∃ st', store_after (seed_hotels (World (Some twice_chic_store) [])) = Some st'
         ∧ ¬ one_per_sample_name st'.
Proof.
  exists (seed_store SAMPLE_HOTELS twice_chic_store).
  split; [vm_compute; reflexivity|].
  intros H.
  assert (Hlen : length (named "Urban Chic Hotel"
            (seed_store SAMPLE_HOTELS twice_chic_store)) = 2%nat)
    by (vm_compute; reflexivity).
  specialize (H (Hotel.Build "Urban Chic Hotel" "New York"
    "Boutique hotel in the heart of the city with skyline views."
    [ "https://images.unsplash.com/photo-1522708323590-d24dbb6b0267";
      "https://images.unsplash.com/photo-1509057199576-632a47484ece" ]
    (Float "299.0") (Float "4.7"))).
  simpl Hotel.name in H. rewrite Hlen in H.
  assert (2 = 1)%nat as Habs; [|discriminate Habs].
  apply H. right. left.
Qed.

(** C4, as stated, fails: with the empty string supplied as [city], the
    seeded hotels are all returned although none has an empty city. *)
Lemma list_hotels_empty_city_not_exact :
  ¬ city_filter_exact seeded_store EmptyString.
Proof.
  unfold city_filter_exact. intros H.
  apply (f_equal (λ o, match o with Return hs => length hs | Raise _ => 0%nat end)) in H.
  vm_compute in H. discriminate H.
Qed.

(** ** Instances of the theorems *)

(** An instance of the 404 theorem: a well-formed identifier borne by no
    seeded hotel. *)
Lemma create_booking_unknown_hotel_example :
  respond (create_booking has_at (unknown_hotel_request 2)) (World (Some seeded_store) []) =
  (Failed 404 (Message "Hotel not found"),
   World (Some seeded_store)
     ([] ++ [OpFindOne "hotel" [("_id", VObjectId (Oid "0000000000000000000000ff"))]])).
Proof.
  apply (create_booking_unknown_hotel has_at (unknown_hotel_request 2) seeded_store []
           (Oid "0000000000000000000000ff")).
  - reflexivity.
  - apply Forall_forall. apply (bool_decide_unpack _). vm_compute. exact I.
Defined.

(** An instance of the seeding theorem: the empty store. *)
Lemma seed_hotels_idempotent_example :
  (∀ h, h ∈ SAMPLE_HOTELS → (length (named (Hotel.name h) empty_store) ≤ 1)%nat)
  ∧ collection empty_store "hotel" = []
  ∧ store_after (seed_hotels (seed_hotels (World (Some empty_store) [])).2) =
    store_after (seed_hotels (World (Some empty_store) []))
  ∧ ∃ st', store_after (seed_hotels (World (Some empty_store) [])) = Some st'
      ∧ one_per_sample_name st'
      ∧ collection st' "hotel" = seeded_docs 0 SAMPLE_HOTELS.
Proof.
  assert (H1 : ∀ h, h ∈ SAMPLE_HOTELS → (length (named (Hotel.name h) empty_store) ≤ 1)%nat).
  { intros h _. vm_compute. lia. }
  assert (H2 : collection empty_store "hotel" = []) by reflexivity.
  destruct (seed_hotels_idempotent (World (Some empty_store) [])) as [Hidem Hall].
  destruct (Hall empty_store eq_refl) as (st' & Hst' & _ & Hone & Hdocs).
  split_and!; [exact H1|exact H2|exact Hidem|].
  exists st'. split_and!; [exact Hst'|exact (Hone H1)|exact (Hdocs H2)].
Defined.

(** An instance of the city filter theorem: Miami in the seeded store. *)
Lemma list_hotels_city_filter_example :
  (list_hotels (Some "Miami") (World (Some seeded_store) [])).1 =
    Return (map serialize_doc (holding "city" (VStr "Miami") (collection seeded_store "hotel")))
  ∧ (list_hotels None (World (Some seeded_store) [])).1 =
    Return (map serialize_doc (collection seeded_store "hotel")).
Proof.
  apply (list_hotels_city_filter seeded_store [] "Miami"). discriminate.
Defined.

(** An instance of the serialisation theorem: a stored booking with a
    creation time. *)
Lemma serialize_doc_spec_example :
  stored_booking !! "_id" = Some (VObjectId (assign_id 7))
  ∧ serialize_doc stored_booking !! "id" = Some (VStr "000000000000000000000007")
  ∧ serialize_doc stored_booking !! "check_in" = Some (VStr "2025-06-01")
  ∧ serialize_doc stored_booking !! "created_at" = Some (VStr "2025-05-30T09:15:00")
  ∧ has_isoformat (VStr "2025-06-01") = false
  ∧ unstored_doc !! "_id" = None
  ∧ serialize_doc unstored_doc !! "id" = Some (VStr "2025-01-02").
Proof.
  destruct (serialize_doc_spec stored_booking) as (_ & Hid & Hother & Hplain & _).
  destruct (serialize_doc_spec unstored_doc) as (_ & _ & Hother' & _).
  assert (H1 : stored_booking !! "_id" = Some (VObjectId (assign_id 7))) by reflexivity.
  assert (H2 : serialize_doc stored_booking !! "check_in" = Some (VStr "2025-06-01")).
  { rewrite (Hother "check_in"); [reflexivity|discriminate|discriminate]. }
  assert (H3 : unstored_doc !! "_id" = None) by reflexivity.
  split_and!.
  - exact H1.
  - exact (Hid _ H1).
  - exact H2.
  - rewrite (Hother "created_at"); [reflexivity|discriminate|discriminate].
  - exact (Hplain "check_in" _ H2).
  - exact H3.
  - rewrite (Hother' "id"); [reflexivity|discriminate|intros _; exact H3].
Defined.

(** An instance of the contact theorem: a message of 4 characters and one
    of 5. *)
Lemma contact_min_length_example :
  has_at "ann@x.org" = true
  ∧ post_contact has_at (ContactMessage.Build "Ann" "ann@x.org" "Hey!")
      (World (Some seeded_store) []) =
    (Unprocessable [("message", MinLength 5)], World (Some seeded_store) [])
  ∧ ∃ st',
      post_contact has_at (ContactMessage.Build "Ann" "ann@x.org" "Hello")
        (World (Some seeded_store) []) =
      (Ok {[ "id" := VStr "000000000000000000000003"; "status" := VStr "received" ]},
       World (Some st')
         ([] ++ [OpInsert "contactmessage"
                   (ContactMessage.model_dump (ContactMessage.Build "Ann" "ann@x.org" "Hello"))]))
      ∧ collection st' "contactmessage" =
        collection seeded_store "contactmessage"
        ++ [<["_id" := VObjectId (assign_id (next_id seeded_store))]>
              (ContactMessage.model_dump (ContactMessage.Build "Ann" "ann@x.org" "Hello"))].
Proof.
  assert (Hmail : has_at "ann@x.org" = true) by reflexivity.
  split_and!.
  - exact Hmail.
  - apply (contact_min_length has_at (ContactMessage.Build "Ann" "ann@x.org" "Hey!")
             (World (Some seeded_store) []) Hmail).
    simpl. lia.
  - assert (Hlen : (5 ≤ String.length "Hello")%nat) by (simpl; lia).
    exact (proj1 (proj2 (contact_min_length has_at
             (ContactMessage.Build "Ann" "ann@x.org" "Hello")
             (World (Some seeded_store) []) Hmail)) Hlen seeded_store [] eq_refl).
Defined.

(** An instance of the booking theorem: a stay that ends before it starts,
    inside a stay already booked for the same hotel. *)
Lemma create_booking_ignores_dates_example :
  (BookingRequest.check_out overlapping_request).(day)
    < (BookingRequest.check_in overlapping_request).(day)
  ∧ length (collection booked_store "booking") = 1%nat
  ∧ ∃ st' tr',
      post_bookings has_at overlapping_request (World (Some booked_store) []) =
        (Ok {[ "id" := VStr (hex (assign_id (next_id booked_store)));
               "message" := VStr "Booking confirmed" ]},
         World (Some st') tr')
      ∧ collection st' "booking" =
        collection booked_store "booking"
        ++ [<["_id" := VObjectId (assign_id (next_id booked_store))]>
              (Booking.model_dump (Booking_of overlapping_request))].
Proof.
  split_and!.
  - simpl. lia.
  - reflexivity.
  - apply (create_booking_ignores_dates has_at overlapping_request booked_store []
             (Oid "000000000000000000000001")
             (<["_id" := VObjectId (Oid "000000000000000000000001")]>
                (Hotel.model_dump
                   (Hotel.Build "Urban Chic Hotel" "New York"
                      "Boutique hotel in the heart of the city with skyline views."
                      [ "https://images.unsplash.com/photo-1522708323590-d24dbb6b0267";
                        "https://images.unsplash.com/photo-1509057199576-632a47484ece" ]
                      (Float "299.0") (Float "4.7"))))).
    + reflexivity.
    + reflexivity.
    + apply (bool_decide_unpack _). vm_compute. exact I.
    + reflexivity.
    + simpl. lia.
Defined.

(** An instance of the login theorem: a known email under another name,
    and an unknown email. *)
Lemma login_find_or_create_example :
  holding "email" (VStr "ann@x.org") (collection one_user_store "user") =
    [<["_id" := VObjectId (assign_id 0)]>
       (user_data (LoginRequest.Build (Some "Ann") "ann@x.org" "pw"))]
  ∧ login (LoginRequest.Build (Some "Annie") "ann@x.org" "other") (World (Some one_user_store) []) =
    (Return {| profile_name := VStr "Ann"; profile_email := "ann@x.org" |},
     World (Some one_user_store) ([] ++ [OpFindOne "user" [("email", VStr "ann@x.org")]]))
  ∧ holding "email" (VStr "bob@x.org") (collection one_user_store "user") = []
  ∧ ∃ st' tr' name,
      login (LoginRequest.Build None "bob@x.org" "pw") (World (Some one_user_store) []) =
        (Return {| profile_name := VStr name; profile_email := "bob@x.org" |},
         World (Some st') tr')
      ∧ length (collection st' "user") = 2%nat
      ∧ length (holding "email" (VStr "bob@x.org") (collection st' "user")) = 1%nat.
Proof.
  assert (Hann : holding "email" (VStr "ann@x.org") (collection one_user_store "user") =
    [<["_id" := VObjectId (assign_id 0)]>
       (user_data (LoginRequest.Build (Some "Ann") "ann@x.org" "pw"))])
    by (vm_compute; reflexivity).
  assert (Hbob : holding "email" (VStr "bob@x.org") (collection one_user_store "user") = [])
    by (vm_compute; reflexivity).
  split_and!.
  - exact Hann.
  - exact (proj1 (login_find_or_create
             (LoginRequest.Build (Some "Annie") "ann@x.org" "other") one_user_store [])
             _ _ Hann).
  - exact Hbob.
  - destruct (proj1 (proj2 (login_find_or_create
               (LoginRequest.Build None "bob@x.org" "pw") one_user_store [])) Hbob)
      as (st' & tr' & name & Hrun & Hcoll & Hone & _).
    exists st', tr', name. split_and!.
    + exact Hrun.
    + rewrite Hcoll. reflexivity.
    + simpl LoginRequest.email in Hone. rewrite Hone. reflexivity.
Defined.

(** An instance of the malformed identifier theorem. *)
Lemma create_booking_malformed_id_example :
  ObjectId_of_str (BookingRequest.hotel_id malformed_request) = None
  ∧ ∃ d, respond (create_booking has_at malformed_request) (World (Some seeded_store) []) =
         (Failed 500 d, World (Some seeded_store) []).
Proof.
  assert (H : ObjectId_of_str (BookingRequest.hotel_id malformed_request) = None)
    by reflexivity.
  split; [exact H|].
  apply (create_booking_malformed_id has_at malformed_request
           (World (Some seeded_store) []) H).
Defined.

(** * Further properties of the handlers *)

(** ** serialize_doc, again *)

Lemma to_iso_idem v : to_iso (to_iso v) = to_iso v.
Proof. by destruct v. Qed.

Lemma rename_id_no_id (d : doc) : rename_id d !! "_id" = None.
Proof.
  unfold rename_id. destruct (d !! "_id") eqn:E; [|done].
  by rewrite lookup_insert_ne, lookup_delete_eq.
Qed.

Lemma rename_id_fixed (d : doc) : d !! "_id" = None → rename_id d = d.
Proof. intros H. unfold rename_id. by rewrite H. Qed.

(** X1: Serialising twice is serialising once: a serialised document has no
    [_id] left to move and no date left to render. *)
Theorem serialize_doc_idempotent (d : doc) :
  serialize_doc (serialize_doc d) = serialize_doc d.
Proof.
  rewrite !serialize_doc_eq.
  rewrite rename_id_fixed.
  - rewrite <- map_fmap_compose. apply map_fmap_ext. intros k v _. apply to_iso_idem.
  - by rewrite lookup_fmap, rename_id_no_id.
Qed.

(** X2: The keys of a serialised document are those of the document, with
    [id] in place of [_id] when [_id] was there; a document that has an
    [id] of its own beside [_id] therefore comes out with one key less,
    and no document comes out with more keys than it had. *)
Theorem serialize_doc_keys (d : doc) :
  dom (serialize_doc d) =
    (if decide ("_id" ∈ dom d) then {["id"]} ∪ dom d ∖ {["_id"]} else dom d)
  ∧ (size (serialize_doc d) ≤ size d)%nat.
Proof.
  rewrite serialize_doc_eq, dom_fmap_L, map_size_fmap. unfold rename_id.
  destruct (d !! "_id") as [v|] eqn:E.
  - rewrite decide_True by (apply elem_of_dom; eauto).
    rewrite dom_insert_L, dom_delete_L. split; [done|].
    rewrite map_size_insert, map_size_delete, E.
    assert (size d ≠ 0)%nat.
    { intros Hz. apply map_size_empty_iff in Hz. subst d. by rewrite lookup_empty in E. }
    destruct (delete "_id" d !! "id"); simpl; lia.
  - rewrite decide_False; [done|]. rewrite elem_of_dom, E. by intros [].
Qed.

(** ** list_hotels, again *)

Lemma list_hotels_no_db city tr :
  list_hotels city (World None tr) =
  (Raise (HTTPException 500 (StrOf (Exception "Database not available"))),
   World None tr).
Proof. reflexivity. Qed.

Lemma list_hotels_db city w : db (list_hotels city w).2 = db w.
Proof. by destruct w as [[st|] tr]. Qed.

(** X3: Listing hotels reads and never writes: the store is left as it was,
    the only store calls made are reads, and the answer never holds more
    documents than the hotel collection does. *)
Theorem list_hotels_read_only (city : option string) (w : world) :
  db (list_hotels city w).2 = db w
  ∧ (∃ ops, trace (list_hotels city w).2 = trace w ++ ops ∧ Forall is_read ops)
  ∧ (∀ st docs, db w = Some st → (list_hotels city w).1 = Return docs →
       (length docs ≤ length (collection st "hotel"))%nat).
Proof.
  destruct w as [[st|] tr].
  - rewrite list_hotels_run. cbn [fst snd db trace]. split_and!.
    + done.
    + eexists. split; [done|]. by repeat constructor.
    + intros ? docs [= <-] [= <-]. rewrite length_map. apply length_filter.
  - rewrite list_hotels_no_db. cbn [fst snd db trace]. split_and!.
    + done.
    + exists []. by rewrite app_nil_r.
    + intros ? ? [=].
Qed.

(** ** create_booking, again *)

Section CreateBookingMore.

Variable valid_email : string → bool.

Lemma post_bookings_run req w :
  post_bookings valid_email req w =
  if valid_email (BookingRequest.user_email req)
  then respond (create_booking valid_email req) w
  else (Unprocessable [("user_email", EmailFormat)], w).
Proof.
  unfold post_bookings, route, BookingRequest_errors, check.
  by destruct (valid_email _).
Qed.

Lemma Booking_errors_nil_iff req :
  Booking_errors valid_email req = [] ↔
  valid_email (BookingRequest.user_email req) = true
  ∧ 1 ≤ BookingRequest.guests req ≤ 10.
Proof.
  unfold Booking_errors, check.
  destruct (valid_email _); simpl.
  - destruct (1 <=? BookingRequest.guests req) eqn:H1;
      destruct (BookingRequest.guests req <=? 10) eqn:H2; simpl;
      rewrite ?Z.leb_le, ?Z.leb_gt in *; split; intros H; try done; try lia.
    all: destruct H as [_ ?]; lia.
  - split; [done|]. by intros [? _].
Qed.

(** X5: A booking is confirmed exactly when a database is configured, the
    email is valid, [hotel_id] is a string that [ObjectId] accepts and
    whose identifier a hotel of the store bears, and [guests] is between 1
    and 10; nothing else in the request or the store matters. *)
Theorem post_bookings_ok_iff (req : BookingRequest.t) (w : world) :
  (∃ body w', post_bookings valid_email req w = (Ok body, w'))
  ↔ (∃ st oid, db w = Some st
       ∧ valid_email (BookingRequest.user_email req) = true
       ∧ ObjectId_of_str (BookingRequest.hotel_id req) = Some oid
       ∧ hotel_with_id oid st ≠ []
       ∧ 1 ≤ BookingRequest.guests req ≤ 10).
Proof.
  rewrite post_bookings_run. unfold respond, hotel_with_id.
  destruct (valid_email (BookingRequest.user_email req)) eqn:Hmail.
  2: { split; [by intros (? & ? & [=])|]. by intros (? & ? & _ & [=] & _). }
  destruct w as [[st|] tr].
  2: { rewrite create_booking_no_db.
       split; [by intros (? & ? & [=])|]. by intros (? & ? & [=] & _). }
  rewrite create_booking_run.
  destruct (ObjectId_of_str (BookingRequest.hotel_id req)) as [oid|] eqn:Hoid.
  2: { split; [by intros (? & ? & [=])|]. by intros (? & ? & _ & _ & [=] & _). }
  cbv zeta. rewrite found_truthy.
  case_bool_decide as Hfound.
  2: { split; [by intros (? & ? & [=])|].
       intros (? & ? & [= <-] & _ & [= <-] & Hne & _). done. }
  destruct (Booking_errors valid_email req) as [|e es] eqn:Herr.
  - apply Booking_errors_nil_iff in Herr as [_ Hg].
    split; [|eauto]. intros _. exists st, oid. done.
  - split; [by intros (? & ? & [=])|].
    intros (? & ? & _ & _ & _ & _ & Hg).
    assert (Booking_errors valid_email req = []) as Hnil
      by (by apply Booking_errors_nil_iff).
    by rewrite Hnil in Herr.
Qed.

(** X7: A booking request that is not confirmed changes nothing and makes no
    store call but reads; one that is confirmed appends one document to
    the booking collection after one read and leaves every other collection
    as it was. *)
Theorem post_bookings_footprint (req : BookingRequest.t) (w : world) :
  let r := post_bookings valid_email req w in
  (status r.1 ≠ 200 →
     db r.2 = db w ∧ ∃ ops, trace r.2 = trace w ++ ops ∧ Forall is_read ops)
  ∧ (status r.1 = 200 →
     ∃ st st' b flt,
       db w = Some st ∧ db r.2 = Some st'
       ∧ trace r.2 = trace w ++ [OpFindOne "hotel" flt; OpInsert "booking" (delete "_id" b)]
       ∧ collection st' "booking" = collection st "booking" ++ [b]
       ∧ ∀ other, other ≠ "booking" → collection st' other = collection st other).
Proof.
  cbv zeta. rewrite post_bookings_run. unfold respond.
  assert (Hnil : ∀ tr : list store_op, ∃ ops, tr = tr ++ ops ∧ Forall is_read ops).
  { intros tr. exists []. by rewrite app_nil_r. }
  assert (Hone : ∀ (tr : list store_op) flt,
            ∃ ops, tr ++ [OpFindOne "hotel" flt] = tr ++ ops ∧ Forall is_read ops).
  { intros tr flt. eexists. split; [done|]. by repeat constructor. }
  destruct (valid_email (BookingRequest.user_email req)).
  2: { cbn [fst snd db trace status]. split; [by auto|intros [=]]. }
  destruct w as [[st|] tr].
  2: { rewrite create_booking_no_db. cbn [fst snd db trace status].
       split; [by auto|intros [=]]. }
  rewrite create_booking_run.
  destruct (ObjectId_of_str (BookingRequest.hotel_id req)) as [oid|].
  2: { cbn [fst snd db trace status]. split; [by auto|intros [=]]. }
  cbv zeta.
  destruct (doc_truthy _).
  2: { cbn [fst snd db trace status]. split; [by auto|intros [=]]. }
  destruct (Booking_errors valid_email req).
  2: { cbn [fst snd db trace status]. split; [by auto|intros [=]]. }
  cbn [fst snd db trace status]. split; [done|]. intros _.
  eexists st, _, _, _. split_and!; [done|done| | |].
  - rewrite <- app_assoc. cbn [app]. do 4 f_equal.
    rewrite delete_insert_id; [done|reflexivity].
  - apply collection_insert.
  - intros other Hother. by apply collection_insert_ne.
Qed.

End CreateBookingMore.

(** ** seed_hotels, again *)

Lemma filter_ext_in {A} (P Q : A → Prop) `{!∀ x, Decision (P x)} `{!∀ x, Decision (Q x)}
    (l : list A) :
  (∀ x, x ∈ l → P x ↔ Q x) → filter P l = filter Q l.
Proof.
  induction l as [|x l IH]; intros Hext; [done|].
  rewrite !filter_cons.
  destruct (decide (P x)) as [HP|HP], (decide (Q x)) as [HQ|HQ].
  - f_equal. apply IH. intros y Hy. apply Hext. by right.
  - exfalso. apply HQ, Hext; [by left|done].
  - exfalso. apply HP, Hext; [by left|done].
  - apply IH. intros y Hy. apply Hext. by right.
Qed.

Lemma model_dump_no_id h : Hotel.model_dump h !! "_id" = None.
Proof. reflexivity. Qed.

Lemma seed_store_appends hs st :
  NoDup (map Hotel.name hs) →
  ∃ news,
    collection (seed_store hs st) "hotel" = collection st "hotel" ++ news
    ∧ map (delete "_id") news =
      map Hotel.model_dump (filter (λ h, named (Hotel.name h) st = []) hs)
    ∧ ∀ other, other ≠ "hotel" →
        collection (seed_store hs st) other = collection st other.
Proof.
  revert st. induction hs as [|h hs IH]; intros st Hnd; cbn [seed_store].
  - exists []. by rewrite app_nil_r.
  - rewrite fmap_cons in Hnd. apply NoDup_cons in Hnd as [Hh Hnd].
    destruct (decide (named (Hotel.name h) st = [])) as [Hnil|Hsome].
    + rewrite seed_store_one_new by done.
      destruct (IH (store_insert st "hotel" (Hotel.model_dump h)).2 Hnd)
        as (news & Hcoll & Hnews & Hother).
      exists (<["_id" := VObjectId (assign_id (next_id st))]> (Hotel.model_dump h) :: news).
      split_and!.
      * rewrite Hcoll, collection_insert, <- app_assoc. reflexivity.
      * rewrite filter_cons_True by done. rewrite !fmap_cons.
        rewrite delete_insert_id by apply model_dump_no_id.
        f_equal. etrans; [exact Hnews|]. f_equal.
        apply filter_ext_in. intros h' Hh'.
        rewrite named_insert. case_decide as Hn; [|by rewrite app_nil_r].
        exfalso. apply Hh. rewrite Hn. apply list_elem_of_fmap. eauto.
      * intros other Ho. rewrite Hother by done. by apply collection_insert_ne.
    + rewrite seed_store_one_found by done.
      rewrite filter_cons_False by done. by apply IH.
Qed.

(** X8: On a configured store seeding always answers [ok], and what it does to
    the store is to append to the hotel collection, in sample order, one
    document for each sample hotel whose name no hotel bore, the sample's
    fields under a fresh [_id]; the hotels already there and the other
    collections are left as they were. *)
Theorem seed_hotels_appends_missing (st : store) (tr : list store_op) :
  ∃ st' tr' news,
    seed_hotels (World (Some st) tr) =
      (Return {[ "status" := VStr "ok" ]}, World (Some st') tr')
    ∧ collection st' "hotel" = collection st "hotel" ++ news
    ∧ map (delete "_id") news = map Hotel.model_dump (missing_samples st)
    ∧ ∀ other, other ≠ "hotel" → collection st' other = collection st other.
Proof.
  destruct (seed_hotels_run st tr) as [tr' Hrun].
  destruct (seed_store_appends SAMPLE_HOTELS st SAMPLE_HOTELS_names)
    as (news & H1 & H2 & H3).
  by exists (seed_store SAMPLE_HOTELS st), tr', news.
Qed.

(** ** login, again *)

Lemma login_no_db req tr :
  login req (World None tr) =
  (Raise (HTTPException 500 (StrOf (Exception "Database not available"))),
   World None tr).
Proof. reflexivity. Qed.

(** X10: The password of a login request is never looked at: the same
    request under another password is answered alike and leaves the same
    world; and the document a first login stores in the user collection
    has the four fields _id, name, email and password_hash, with the
    request's email and, for the hash, the fixed placeholder. *)
Theorem login_ignores_password (req : LoginRequest.t) (p' : string) (w : world) :
  login (LoginRequest.Build (LoginRequest.name req) (LoginRequest.email req) p') w
    = login req w
  ∧ ∀ st tr,
      w = World (Some st) tr →
      holding "email" (VStr (LoginRequest.email req)) (collection st "user") = [] →
      ∃ st' tr' d answer,
        login req w = (Return answer, World (Some st') tr')
        ∧ collection st' "user" = collection st "user" ++ [d]
        ∧ dom d = {[ "_id"; "name"; "email"; "password_hash" ]}
        ∧ d !! "email" = Some (VStr (LoginRequest.email req))
        ∧ d !! "password_hash" = Some (VStr "demo-hash").
Proof.
  split; [by destruct req|].
  intros st tr -> Hnone.
  destruct (login_new req st tr Hnone) as [Hrun _].
  eexists _, _, _, _. split_and!.
  - exact Hrun.
  - apply collection_insert.
  - unfold user_data. rewrite !dom_insert_L, dom_singleton_L. set_solver.
  - rewrite lookup_insert_ne by done. apply user_data_email.
  - by rewrite lookup_insert_ne.
Qed.

(** X11: A second login with the same email is a pure read: whatever name and
    password it carries, it leaves the store as the first login left it;
    and the same request repeated gets the same answer as the first
    time. *)
Theorem login_twice (req req' : LoginRequest.t) (st : store) (tr : list store_op) :
  LoginRequest.email req' = LoginRequest.email req →
  let first := login req (World (Some st) tr) in
  db (login req' first.2).2 = db first.2
  ∧ (login req first.2).1 = first.1
  ∧ ∃ p, first.1 = Return p.
Proof.
  intros He. cbv zeta.
  destruct (holding "email" (VStr (LoginRequest.email req)) (collection st "user"))
    as [|u rest] eqn:H.
  - destruct (login_new req st tr H) as [Hrun Hone]. rewrite Hrun.
    cbn [fst snd]. split_and!; [| |eauto].
    + rewrite <- He in Hone. by rewrite (login_existing req' _ _ _ [] Hone).
    + rewrite (login_existing req _ _ _ [] Hone). cbn [fst].
      rewrite lookup_insert_ne by done. rewrite user_data_name.
      unfold item. by rewrite user_data_name.
  - rewrite (login_existing req st tr u rest H). cbn [fst snd]. split_and!; [| |eauto].
    + rewrite <- He in H. by rewrite (login_existing req' _ _ u rest H).
    + by rewrite (login_existing req _ _ u rest H).
Qed.

(** ** contact, again *)

Section ContactMore.

Variable valid_email : string → bool.

Lemma post_contact_run m st tr :
  ContactMessage_errors valid_email m = [] →
  post_contact valid_email m (World (Some st) tr) =
  let data := ContactMessage.model_dump m in
  let r := store_insert st "contactmessage" data in
  (Ok {[ "id" := VStr (hex r.1); "status" := VStr "received" ]},
   World (Some r.2) (tr ++ [OpInsert "contactmessage" data])).
Proof.
  intros H. unfold post_contact, route. rewrite H. reflexivity.
Qed.

(** X13: Contact messages are never deduplicated and never read back: the same
    valid message posted twice is stored twice, under two successive
    identifiers, by two inserts and no other store call, and no other
    collection changes. *)
Theorem post_contact_twice (m : ContactMessage.t) (st : store) (tr : list store_op) :
  ContactMessage_errors valid_email m = [] →
  let w1 := (post_contact valid_email m (World (Some st) tr)).2 in
  let w2 := (post_contact valid_email m w1).2 in
  let data := ContactMessage.model_dump m in
  ∃ st2,
    db w2 = Some st2
    ∧ collection st2 "contactmessage" =
      collection st "contactmessage"
      ++ [ <["_id" := VObjectId (assign_id (next_id st))]> data;
           <["_id" := VObjectId (assign_id (N.succ (next_id st)))]> data ]
    ∧ trace w2 = tr ++ [OpInsert "contactmessage" data; OpInsert "contactmessage" data]
    ∧ ∀ other, other ≠ "contactmessage" → collection st2 other = collection st other.
Proof.
  intros H. cbv zeta. rewrite (post_contact_run m st tr H). cbn [snd].
  rewrite (post_contact_run m _ _ H). cbn [snd db trace].
  eexists. split_and!; [done| | |].
  - rewrite !collection_insert, <- app_assoc. reflexivity.
  - by rewrite <- app_assoc.
  - intros other Ho. by rewrite !collection_insert_ne.
Qed.

End ContactMore.

(** ** The routes together *)

Section Routes.

Variable valid_email : string → bool.

Lemma respond_not_unprocessable {A} (m : M A) w errors :
  (respond m w).1 ≠ Unprocessable errors.
Proof.
  unfold respond. destruct (m w) as [[a|[]] w']; discriminate.
Qed.

Lemma route_unprocessable {B A} (errors : B → list (string * constraint))
    (handler : B → M A) body w errs :
  (route errors handler body w).1 = Unprocessable errs ↔
  errors body = errs ∧ errs ≠ [].
Proof.
  unfold route. destruct (errors body) as [|e es] eqn:E.
  - split.
    + intros H. by apply respond_not_unprocessable in H.
    + by intros [<- ?].
  - cbn [fst]. split.
    + by intros [= <-].
    + by intros [<- _].
Qed.

Lemma route_unprocessable_world {B A} (errors : B → list (string * constraint))
    (handler : B → M A) body w errs :
  (route errors handler body w).1 = Unprocessable errs →
  (route errors handler body w).2 = w.
Proof.
  intros H. pose proof H as [He Hne]%route_unprocessable.
  unfold route. rewrite He. by destruct errs.
Qed.

(** X14: Among the bodies that have every field, each of its declared
    type, which ones are still refused with 422, route by route: a login
    body exactly when its email is not valid; a booking body exactly when
    its user_email is not valid (the bound on guests is not checked here);
    a contact body exactly when its email is not valid or its message is
    shorter than 5 characters, both fields being reported when both fail.
    A refused body leaves the world as it was. *)
Theorem unprocessable_bodies (lr : LoginRequest.t) (br : BookingRequest.t)
    (cm : ContactMessage.t) (w : world) :
  ((∃ errs, (post_auth_login valid_email lr w).1 = Unprocessable errs)
     ↔ valid_email (LoginRequest.email lr) = false)
  ∧ ((∃ errs, (post_bookings valid_email br w).1 = Unprocessable errs)
     ↔ valid_email (BookingRequest.user_email br) = false)
  ∧ (∀ errs, (post_contact valid_email cm w).1 = Unprocessable errs ↔
       errs ≠ []
       ∧ errs = (if valid_email (ContactMessage.email cm) then []
                 else [("email", EmailFormat)])
                ++ (if (5 <=? String.length (ContactMessage.message cm))%nat then []
                    else [("message", MinLength 5)]))
  ∧ (∀ errs, (post_auth_login valid_email lr w).1 = Unprocessable errs →
       (post_auth_login valid_email lr w).2 = w)
  ∧ (∀ errs, (post_bookings valid_email br w).1 = Unprocessable errs →
       (post_bookings valid_email br w).2 = w)
  ∧ (∀ errs, (post_contact valid_email cm w).1 = Unprocessable errs →
       (post_contact valid_email cm w).2 = w).
Proof.
  unfold post_auth_login, post_bookings, post_contact. split_and!.
  - split.
    + intros [errs [He Hne]%route_unprocessable].
      unfold LoginRequest_errors, check in He. destruct (valid_email _); [|done].
      by subst errs.
    + intros H. eexists. apply route_unprocessable.
      unfold LoginRequest_errors, check. rewrite H. done.
  - split.
    + intros [errs [He Hne]%route_unprocessable].
      unfold BookingRequest_errors, check in He. destruct (valid_email _); [|done].
      by subst errs.
    + intros H. eexists. apply route_unprocessable.
      unfold BookingRequest_errors, check. rewrite H. done.
  - intros errs. rewrite route_unprocessable.
    unfold ContactMessage_errors, check. split; intros [? ?]; by subst.
  - intros errs. apply route_unprocessable_world.
  - intros errs. apply route_unprocessable_world.
  - intros errs. apply route_unprocessable_world.
Qed.

Lemma status_respond {A} (m : M A) w :
  (∀ s d w', m w = (Raise (HTTPException s d), w') → s = 500) →
  status (respond m w).1 = 200 ∨ status (respond m w).1 = 500.
Proof.
  intros H. unfold respond. destruct (m w) as [[a|[s d| | | | |]] w'] eqn:E;
    cbn [fst status]; auto.
  right. by eapply H.
Qed.

Lemma try_as_500 {A} (body : M A) w s d w' :
  try_except body as_500 w = (Raise (HTTPException s d), w') → s = 500.
Proof.
  unfold try_except, as_500, raise. destruct (body w) as [[a|e] w1]; congruence.
Qed.

Lemma status_route {B A} (errors : B → list (string * constraint))
    (handler : B → M A) body w (allowed : Z → Prop) :
  allowed 422 →
  (allowed (status (respond (handler body) w).1)) →
  allowed (status (route errors handler body w).1).
Proof. intros H1 H2. unfold route. by destruct (errors body). Qed.

(** X15: The status codes: every route answers 200 or 500, the three routes
    with a body also 422, and only the booking route ever answers 404. *)
Theorem route_statuses (lr : LoginRequest.t) (br : BookingRequest.t)
    (cm : ContactMessage.t) (city : option string) (w : world) :
  status (post_auth_login valid_email lr w).1 ∈ [200; 422; 500]
  ∧ status (post_hotels_seed w).1 ∈ [200; 500]
  ∧ status (get_hotels city w).1 ∈ [200; 500]
  ∧ status (post_bookings valid_email br w).1 ∈ [200; 404; 422; 500]
  ∧ status (post_contact valid_email cm w).1 ∈ [200; 422; 500].
Proof.
  split_and!.
  - apply (status_route _ _ _ _ (λ s, s ∈ [200; 422; 500])); [set_solver|].
    destruct (status_respond (login lr) w) as [->| ->]; [|set_solver..].
    intros s d w'. apply try_as_500.
  - unfold post_hotels_seed.
    destruct (status_respond seed_hotels w) as [->| ->]; [|set_solver..].
    intros s d w'. apply try_as_500.
  - unfold get_hotels.
    destruct (status_respond (list_hotels city) w) as [->| ->]; [|set_solver..].
    intros s d w'. apply try_as_500.
  - apply (status_route _ _ _ _ (λ s, s ∈ [200; 404; 422; 500])); [set_solver|].
    unfold respond. destruct w as [[st|] tr].
    + rewrite create_booking_run.
      destruct (ObjectId_of_str _); [|cbn; set_solver].
      cbv zeta. destruct (doc_truthy _); [|cbn; set_solver].
      destruct (Booking_errors _ _); cbn; set_solver.
    + rewrite create_booking_no_db. cbn. set_solver.
  - apply (status_route _ _ _ _ (λ s, s ∈ [200; 422; 500])); [set_solver|].
    destruct (status_respond (contact cm) w) as [->| ->]; [|set_solver..].
    intros s d w'. apply try_as_500.
Qed.

End Routes.

(** ** Only seeding changes what the listing shows *)

Section Listing.

Variable valid_email : string → bool.

Lemma get_hotels_hotels_of city w w' :
  hotels_of w' = hotels_of w → (get_hotels city w').1 = (get_hotels city w).1.
Proof.
  unfold hotels_of, get_hotels, respond.
  destruct w as [[st|] tr], w' as [[st'|] tr']; cbn [db fmap option_fmap option_map];
    intros H; try discriminate H.
  - rewrite !list_hotels_run. cbn [fst]. unfold store_find.
    injection H as H. by rewrite H.
  - by rewrite !list_hotels_no_db.
Qed.

Lemma hotels_of_insert st name d tr tr' :
  name ≠ "hotel" →
  hotels_of (World (Some (store_insert st name d).2) tr') = hotels_of (World (Some st) tr).
Proof.
  intros H. unfold hotels_of. cbn [db fmap option_fmap option_map].
  by rewrite collection_insert_ne.
Qed.

Lemma login_hotels req w : hotels_of (login req w).2 = hotels_of w.
Proof.
  destruct w as [[st|] tr]; [|by rewrite login_no_db].
  rewrite login_run. cbv zeta.
  destruct (doc_truthy _).
  - by destruct (store_find_one st "user" _).
  - destruct (store_find_one _ "user" _); by apply hotels_of_insert.
Qed.

Lemma create_booking_hotels req w :
  hotels_of (create_booking valid_email req w).2 = hotels_of w.
Proof.
  destruct w as [[st|] tr]; [|by rewrite create_booking_no_db].
  rewrite create_booking_run.
  destruct (ObjectId_of_str _); [|done]. cbv zeta.
  destruct (doc_truthy _); [|done].
  destruct (Booking_errors _ _); [|done].
  by apply hotels_of_insert.
Qed.

Lemma contact_hotels m w : hotels_of (contact m w).2 = hotels_of w.
Proof.
  destruct w as [[st|] tr]; [|done].
  rewrite contact_run. by apply hotels_of_insert.
Qed.

Lemma respond_world {A} (m : M A) w : (respond m w).2 = (m w).2.
Proof. unfold respond. by destruct (m w) as [[a|[]] w']. Qed.

Lemma route_hotels {B A} (errors : B → list (string * constraint))
    (handler : B → M A) body w :
  hotels_of (handler body w).2 = hotels_of w →
  hotels_of (route errors handler body w).2 = hotels_of w.
Proof.
  intros H. unfold route. destruct (errors body); [|done].
  by rewrite respond_world.
Qed.

(** X16: Logging in, booking, sending a contact message and listing never
    change what [GET /hotels] answers: after any of them the listing, for
    any city filter, is what it was before.  Seeding is the only route
    that can change it. *)
Theorem listing_unchanged_by_other_routes (lr : LoginRequest.t)
    (br : BookingRequest.t) (cm : ContactMessage.t) (city city' : option string)
    (w : world) :
  (get_hotels city (post_auth_login valid_email lr w).2).1 = (get_hotels city w).1
  ∧ (get_hotels city (post_bookings valid_email br w).2).1 = (get_hotels city w).1
  ∧ (get_hotels city (post_contact valid_email cm w).2).1 = (get_hotels city w).1
  ∧ (get_hotels city (get_hotels city' w).2).1 = (get_hotels city w).1.
Proof.
  split_and!; apply get_hotels_hotels_of.
  - apply route_hotels, login_hotels.
  - apply route_hotels, create_booking_hotels.
  - apply route_hotels, contact_hotels.
  - unfold get_hotels. rewrite respond_world. unfold hotels_of.
    by rewrite list_hotels_db.
Qed.

End Listing.

(** ** From seeding to a booking *)

Lemma string_forallb_app p s1 s2 :
  string_forallb p (s1 ++ s2) = string_forallb p s1 && string_forallb p s2.
Proof. induction s1 as [|c s1 IH]; simpl; [done|]. by rewrite IH, andb_assoc. Qed.

Lemma string_map_app f s1 s2 :
  string_map f (s1 ++ s2) = (string_map f s1 ++ string_map f s2)%string.
Proof. induction s1 as [|c s1 IH]; simpl; [done|]. by rewrite IH. Qed.

Lemma hex_digit_ok n :
  (n < 16)%N → is_hex_digit (hex_digit n) = true ∧ lower (hex_digit n) = hex_digit n.
Proof.
  intros H.
  assert (n ∈ (N.of_nat <$> seq 0 16)) as Hn.
  { apply list_elem_of_fmap. exists (N.to_nat n). split; [lia|].
    apply elem_of_seq. lia. }
  cbn in Hn. set_unfold in Hn.
  repeat (destruct Hn as [->|Hn]; [by vm_compute|]). done.
Qed.

Lemma hex_fill_ok w n :
  String.length (hex_fill w n) = w
  ∧ string_forallb is_hex_digit (hex_fill w n) = true
  ∧ string_map lower (hex_fill w n) = hex_fill w n.
Proof.
  revert n. induction w as [|w IH]; intros n; [done|].
  destruct (IH (n / 16)%N) as (H1 & H2 & H3).
  destruct (hex_digit_ok (n mod 16)) as [H4 H5].
  { apply N.mod_lt. lia. }
  cbn [hex_fill]. rewrite length_append, string_forallb_app, string_map_app.
  cbn [String.length string_forallb string_map].
  rewrite H1, H2, H3, H4, H5. split_and!; [lia|done|done].
Qed.

Lemma hex_digit_not_space c : is_hex_digit c = true → is_space c = false.
Proof. destruct c as [[] [] [] [] [] [] [] []]; by vm_compute. Qed.

(** A string of hex digits, two for each byte, reads as itself in lower
    case. *)
Lemma fromhex_hex n s :
  String.length s = (2 * n)%nat →
  string_forallb is_hex_digit s = true →
  fromhex s = Some (string_map lower s).
Proof.
  revert s. induction n as [|n IH]; intros s Hlen Hhex.
  - by destruct s.
  - destruct s as [|c [|c' s]]; [done|simpl in Hlen; lia|].
    cbn [string_forallb] in Hhex.
    apply andb_true_iff in Hhex as [Hc Hhex].
    apply andb_true_iff in Hhex as [Hc' Hhex].
    cbn [fromhex string_map]. rewrite (hex_digit_not_space c Hc), Hc, Hc'.
    rewrite (IH s); [done| |done]. simpl in Hlen. lia.
Qed.

(** An identifier the store assigned reads back from its string form. *)
Lemma assign_id_well_formed n : ObjectId_of_str (hex (assign_id n)) = Some (assign_id n).
Proof.
  unfold ObjectId_of_str, assign_id. cbn [hex].
  destruct (hex_fill_ok 24 n) as (H1 & H2 & H3).
  rewrite H1. cbn [Nat.eqb]. rewrite (fromhex_hex 12); [|by rewrite H1|done].
  by rewrite H3.
Qed.

Lemma serialize_doc_id (d : doc) v :
  d !! "_id" = Some v → serialize_doc d !! "id" = Some (VStr (str v)).
Proof.
  intros H. rewrite serialize_doc_lookup. unfold rename_id. rewrite H.
  by rewrite lookup_insert_eq.
Qed.

Lemma serialize_doc_field (d : doc) k :
  k ≠ "_id" → k ≠ "id" → serialize_doc d !! k = to_iso <$> d !! k.
Proof.
  intros H1 H2. rewrite serialize_doc_lookup. unfold rename_id.
  destruct (d !! "_id"); [|done].
  by rewrite lookup_insert_ne, lookup_delete_ne.
Qed.

Lemma seeded_docs_cons n h hs :
  seeded_docs n (h :: hs) =
  <["_id" := VObjectId (assign_id n)]> (Hotel.model_dump h) :: seeded_docs (N.succ n) hs.
Proof.
  unfold seeded_docs. cbn [imap]. rewrite N.add_0_r. f_equal.
  apply imap_ext. intros i x _. cbn. do 3 f_equal. lia.
Qed.

Lemma model_dump_city h : Hotel.model_dump h !! "city" = Some (VStr (Hotel.city h)).
Proof. reflexivity. Qed.

Lemma holding_city_seeded_docs_nil c n hs :
  c ∉ map Hotel.city hs → holding "city" (VStr c) (seeded_docs n hs) = [].
Proof.
  revert n. induction hs as [|h hs IH]; intros n Hc; [done|].
  rewrite fmap_cons in Hc. apply not_elem_of_cons in Hc as [Hne Hc].
  rewrite seeded_docs_cons. unfold holding. rewrite filter_cons_False.
  - by apply IH.
  - rewrite lookup_insert_ne by done. rewrite model_dump_city. congruence.
Qed.

Lemma holding_city_seeded_docs n hs h :
  NoDup (map Hotel.city hs) → h ∈ hs →
  ∃ k, holding "city" (VStr (Hotel.city h)) (seeded_docs n hs) =
       [<["_id" := VObjectId (assign_id k)]> (Hotel.model_dump h)].
Proof.
  revert n. induction hs as [|h0 hs IH]; intros n Hnd Hin; [by apply elem_of_nil in Hin|].
  rewrite fmap_cons in Hnd. apply NoDup_cons in Hnd as [Hh0 Hnd].
  rewrite seeded_docs_cons. unfold holding.
  apply elem_of_cons in Hin as [->|Hin].
  - exists n. rewrite filter_cons_True.
    + f_equal. by apply holding_city_seeded_docs_nil.
    + rewrite lookup_insert_ne by done. apply model_dump_city.
  - rewrite filter_cons_False.
    + by apply IH.
    + rewrite lookup_insert_ne by done. rewrite model_dump_city.
      intros [= Hc]. apply Hh0. rewrite Hc. apply list_elem_of_fmap. eauto.
Qed.

Lemma SAMPLE_HOTELS_cities : NoDup (map Hotel.city SAMPLE_HOTELS).
Proof. apply (bool_decide_unpack _). by vm_compute. Qed.

Lemma SAMPLE_HOTELS_city_nonempty h : h ∈ SAMPLE_HOTELS → truthy_str (Some (Hotel.city h)) = true.
Proof.
  revert h. apply Forall_forall. apply (bool_decide_unpack _). by vm_compute.
Qed.

Section SeedListBook.

Variable valid_email : string → bool.

(** X17: A hotel that the listing shows can be booked under the [id] the
    listing shows for it: if a stored hotel bears a genuine identifier,
    a request with a valid email, 1 to 10 guests and that listed [id] as
    [hotel_id] is confirmed. *)
Theorem listed_id_can_be_booked (st : store) (tr : list store_op) (d : doc)
    (o : ObjectId) (req : BookingRequest.t) :
  d ∈ collection st "hotel" →
  d !! "_id" = Some (VObjectId o) →
  ObjectId_of_str (hex o) = Some o →
  serialize_doc d !! "id" = Some (VStr (BookingRequest.hotel_id req)) →
  valid_email (BookingRequest.user_email req) = true →
  1 ≤ BookingRequest.guests req ≤ 10 →
  ∃ id w',
    post_bookings valid_email req (World (Some st) tr) =
    (Ok {[ "id" := VStr id; "message" := VStr "Booking confirmed" ]}, w').
Proof.
  intros Hin Hid Ho Hlisted Hmail Hguests.
  rewrite (serialize_doc_id d _ Hid) in Hlisted. injection Hlisted as Hlisted.
  cbn [str] in Hlisted.
  unfold post_bookings, route, BookingRequest_errors, check. rewrite Hmail.
  unfold respond. rewrite create_booking_run, <- Hlisted, Ho. cbv zeta.
  rewrite (hotel_lookup_present _ _ _ Hin Hid).
  rewrite (Booking_errors_in_range _ _ Hmail Hguests).
  by eexists _, _.
Qed.

(** X18: From seeding to a booking: on a store without hotels, after
    [POST /hotels/seed], listing by the city of any sample hotel shows
    exactly that hotel, under its name and an [id]; and a booking request
    with a valid email, 1 to 10 guests and that [id] as [hotel_id] is
    confirmed. *)
Theorem seed_list_book (st : store) (tr : list store_op) (h : Hotel.t) :
  collection st "hotel" = [] →
  h ∈ SAMPLE_HOTELS →
  let seeded := (post_hotels_seed (World (Some st) tr)).2 in
  let listing := get_hotels (Some (Hotel.city h)) seeded in
  ∃ d id,
    listing.1 = Ok [d]
    ∧ d !! "name" = Some (VStr (Hotel.name h))
    ∧ d !! "id" = Some (VStr id)
    ∧ ∀ req,
        valid_email (BookingRequest.user_email req) = true →
        BookingRequest.hotel_id req = id →
        1 ≤ BookingRequest.guests req ≤ 10 →
        ∃ bid w',
          post_bookings valid_email req listing.2 =
          (Ok {[ "id" := VStr bid; "message" := VStr "Booking confirmed" ]}, w').
Proof.
  intros Hempty Hin. cbv zeta.
  unfold post_hotels_seed. rewrite respond_world.
  destruct (seed_hotels_run st tr) as [tr1 Hrun]. rewrite Hrun. cbn [snd].
  assert (Hcoll : collection (seed_store SAMPLE_HOTELS st) "hotel" =
                  seeded_docs (next_id st) SAMPLE_HOTELS).
  { rewrite seed_store_fresh.
    - by rewrite Hempty.
    - apply SAMPLE_HOTELS_names.
    - intros h' _. unfold named. by rewrite Hempty. }
  destruct (holding_city_seeded_docs (next_id st) SAMPLE_HOTELS h
              SAMPLE_HOTELS_cities Hin) as [k Hk].
  set (d0 := <["_id" := VObjectId (assign_id k)]> (Hotel.model_dump h)) in *.
  assert (Hd0 : d0 !! "_id" = Some (VObjectId (assign_id k))) by apply lookup_insert_eq.
  exists (serialize_doc d0), (hex (assign_id k)).
  unfold get_hotels, respond. rewrite list_hotels_run.
  rewrite (SAMPLE_HOTELS_city_nonempty h Hin). cbn [fst snd from_option].
  rewrite store_find_single, Hcoll, Hk. split_and!.
  - done.
  - rewrite serialize_doc_field by done. unfold d0.
    rewrite lookup_insert_ne by done. by rewrite model_dump_name.
  - by rewrite (serialize_doc_id d0 _ Hd0).
  - intros req Hmail Hreq Hguests.
    unfold post_bookings, route, BookingRequest_errors, check. rewrite Hmail.
    unfold respond. rewrite create_booking_run, Hreq, assign_id_well_formed. cbv zeta.
    rewrite (hotel_lookup_present _ _ d0).
    + rewrite (Booking_errors_in_range _ _ Hmail Hguests). by eexists _, _.
    + assert (d0 ∈ holding "city" (VStr (Hotel.city h))
                     (collection (seed_store SAMPLE_HOTELS st) "hotel")) as Hd.
      { rewrite Hcoll, Hk. by left. }
      by apply holding_elem_of in Hd as [_ ?].
    + exact Hd0.
Qed.

End SeedListBook.

(** ** Edge cases of login and of the listing *)

Lemma split_head_app local rest :
  free_of "@" local → split_head "@" (local ++ String "@" rest) = local.
Proof.
  unfold free_of. induction local as [|c local IH]; simpl.
  - done.
  - intros [Hc Hl]%andb_true_iff. apply negb_true_iff, bool_decide_eq_false in Hc.
    rewrite decide_False by done. by rewrite IH.
Qed.

(** X12: The name of a new user: when no user has the email yet, a request
    with a non-empty name registers and returns that name, and a request
    without a name, or with the empty name, registers and returns the part
    of the email before its first at sign. *)
Theorem login_default_name (name : option string) (local rest pw : string)
    (st : store) (tr : list store_op) :
  let email := (local ++ String "@" rest)%string in
  let chosen := match name with Some (String c s) => String c s | _ => local end in
  free_of "@" local →
  holding "email" (VStr email) (collection st "user") = [] →
  ∃ st' tr' d,
    login (LoginRequest.Build name email pw) (World (Some st) tr) =
      (Return {| profile_name := VStr chosen; profile_email := email |},
       World (Some st') tr')
    ∧ holding "email" (VStr email) (collection st' "user") = [d]
    ∧ d !! "name" = Some (VStr chosen).
Proof.
  intros email chosen Hfree Hnone.
  destruct (login_new (LoginRequest.Build name email pw) st tr Hnone) as [Hrun Hone].
  assert (Hname : or_str name (split_head "@" email) = chosen).
  { unfold email, chosen. rewrite split_head_app by done. by destruct name as [[|]|]. }
  eexists _, _, _. split_and!.
  - rewrite Hrun. unfold item. rewrite user_data_name. cbn [default LoginRequest.name
      LoginRequest.email]. by rewrite Hname.
  - exact Hone.
  - rewrite lookup_insert_ne by done. rewrite user_data_name.
    cbn [LoginRequest.name LoginRequest.email]. by rewrite Hname.
Qed.

(** X4: A city that no hotel has is not an error: the listing answers 200 with
    no document. *)
Theorem list_hotels_unknown_city (st : store) (tr : list store_op) (c : string) :
  c ≠ EmptyString →
  (∀ d, d ∈ collection st "hotel" → d !! "city" ≠ Some (VStr c)) →
  (get_hotels (Some c) (World (Some st) tr)).1 = Ok [].
Proof.
  intros Hc Hnone. unfold get_hotels, respond. rewrite list_hotels_run.
  destruct c as [|a c]; [done|]. cbn [truthy_str from_option fst].
  rewrite store_find_single.
  by rewrite (proj2 (holding_nil_iff "city" (VStr (String a c)) _) Hnone).
Qed.

(** ** When the booking route answers 404, and when seeding fails *)

Section NotFound.

Variable valid_email : string → bool.

(** X6: The booking route answers 404 exactly when a database is configured,
    the email is valid, [hotel_id] is a string that [ObjectId] accepts and
    no hotel of the store bears the identifier it gives; the number of
    guests and the dates play no part in it. *)
Theorem post_bookings_not_found_iff (req : BookingRequest.t) (w : world) :
  status (post_bookings valid_email req w).1 = 404
  ↔ (∃ st oid, db w = Some st
       ∧ valid_email (BookingRequest.user_email req) = true
       ∧ ObjectId_of_str (BookingRequest.hotel_id req) = Some oid
       ∧ hotel_with_id oid st = []).
Proof.
  rewrite post_bookings_run. unfold respond, hotel_with_id.
  destruct (valid_email (BookingRequest.user_email req)) eqn:Hmail.
  2: { cbn [fst status]. split; [done|]. by intros (? & ? & _ & [=] & _). }
  destruct w as [[st|] tr].
  2: { rewrite create_booking_no_db. cbn [fst status].
       split; [done|]. by intros (? & ? & [=] & _). }
  rewrite create_booking_run.
  destruct (ObjectId_of_str (BookingRequest.hotel_id req)) as [oid|] eqn:Hoid.
  2: { cbn [fst status]. split; [done|]. by intros (? & ? & _ & _ & [=] & _). }
  cbv zeta. rewrite found_truthy.
  case_bool_decide as Hfound.
  - destruct (Booking_errors valid_email req); cbn [fst status];
      (split; [done|]); intros (? & ? & [= <-] & _ & [= <-] & Hnil); done.
  - cbn [fst status]. split; [|done]. intros _. exists st, oid.
    split_and!; try done.
Qed.

(** X9: Seeding fails exactly when no database is configured; it then
    answers 500 and leaves the world as it was. *)
Theorem post_hotels_seed_fails_iff (w : world) :
  (status (post_hotels_seed w).1 = 500 ↔ db w = None)
  ∧ (status (post_hotels_seed w).1 = 200 ↔ is_Some (db w))
  ∧ (db w = None → (post_hotels_seed w).2 = w).
Proof.
  unfold post_hotels_seed, respond. destruct w as [[st|] tr].
  - destruct (seed_hotels_run st tr) as [tr' ->]. cbn [fst snd status db].
    split_and!; [split; intros [=]|split; eauto|intros [=]].
  - rewrite seed_hotels_no_db. cbn [fst snd status db].
    split_and!; [done|split; [intros [=]|by intros []]|done].
Qed.

End NotFound.

(** ** Instances of the further properties *)

(** A first login of Bob on a store that knows only Ann, then a second
    one under another name and password. *)
Lemma login_twice_example :
  let req := LoginRequest.Build (Some "Bob") "bob@x.org" "pw" in
  let req' := LoginRequest.Build None "bob@x.org" "other" in
  let first := login req (World (Some one_user_store) []) in
  db (login req' first.2).2 = db first.2
  ∧ (login req first.2).1 = first.1
  ∧ ∃ p, first.1 = Return p.
Proof.
  exact (login_twice (LoginRequest.Build (Some "Bob") "bob@x.org" "pw")
           (LoginRequest.Build None "bob@x.org" "other") one_user_store [] eq_refl).
Defined.

(** Bob's first login, under two passwords. *)
Lemma login_ignores_password_example :
  holding "email" (VStr "bob@x.org") (collection one_user_store "user") = []
  ∧ login (LoginRequest.Build None "bob@x.org" "other") (World (Some one_user_store) [])
    = login (LoginRequest.Build None "bob@x.org" "pw") (World (Some one_user_store) [])
  ∧ ∃ st' d,
      db (login (LoginRequest.Build None "bob@x.org" "pw") (World (Some one_user_store) [])).2
        = Some st'
      ∧ collection st' "user" = collection one_user_store "user" ++ [d]
      ∧ dom d = {[ "_id"; "name"; "email"; "password_hash" ]}
      ∧ d !! "password_hash" = Some (VStr "demo-hash").
Proof.
  assert (H : holding "email" (VStr "bob@x.org") (collection one_user_store "user") = [])
    by (vm_compute; reflexivity).
  destruct (login_ignores_password (LoginRequest.Build None "bob@x.org" "pw") "other"
              (World (Some one_user_store) [])) as [Hsame Hfirst].
  destruct (Hfirst one_user_store [] eq_refl H)
    as (st' & tr' & d & answer & Hrun & Hcoll & Hdom & _ & Hhash).
  split_and!; [exact H|exact Hsame|].
  exists st', d. rewrite Hrun. split_and!; [reflexivity|exact Hcoll|exact Hdom|exact Hhash].
Defined.

(** The same five-character message posted twice on the seeded store. *)
Lemma post_contact_twice_example :
  let m := ContactMessage.Build "Ann" "ann@x.org" "Hello" in
  ContactMessage_errors has_at m = []
  ∧ ∃ st2,
      db (post_contact has_at m (post_contact has_at m (World (Some seeded_store) [])).2).2
        = Some st2
      ∧ length (collection st2 "contactmessage") = 2%nat.
Proof.
  cbv zeta.
  assert (H : ContactMessage_errors has_at (ContactMessage.Build "Ann" "ann@x.org" "Hello") = [])
    by reflexivity.
  split; [exact H|].
  destruct (post_contact_twice has_at _ seeded_store [] H) as (st2 & Hdb & Hcoll & _).
  exists st2. split; [exact Hdb|]. rewrite Hcoll. reflexivity.
Defined.

(** The second seeded hotel, booked under the id the listing shows. *)
Lemma listed_id_can_be_booked_example :
  urban_chic_doc ∈ collection seeded_store "hotel"
  ∧ serialize_doc urban_chic_doc !! "id" = Some (VStr "000000000000000000000001")
  ∧ ∃ id w',
      post_bookings has_at (sample_request 2) (World (Some seeded_store) []) =
      (Ok {[ "id" := VStr id; "message" := VStr "Booking confirmed" ]}, w').
Proof.
  assert (H1 : urban_chic_doc ∈ collection seeded_store "hotel").
  { apply (bool_decide_unpack _). vm_compute. exact I. }
  assert (H2 : serialize_doc urban_chic_doc !! "id" = Some (VStr "000000000000000000000001"))
    by (vm_compute; reflexivity).
  split_and!; [exact H1|exact H2|].
  apply (listed_id_can_be_booked has_at seeded_store [] urban_chic_doc
           (Oid "000000000000000000000001") (sample_request 2) H1).
  - reflexivity.
  - reflexivity.
  - exact H2.
  - reflexivity.
  - simpl. lia.
Defined.

(** Seeding the empty store, listing New York, booking what is listed. *)
Lemma seed_list_book_example :
  collection empty_store "hotel" = []
  ∧ urban_chic ∈ SAMPLE_HOTELS
  ∧ ∃ d id,
      (get_hotels (Some "New York") (post_hotels_seed (World (Some empty_store) [])).2).1
        = Ok [d]
      ∧ d !! "name" = Some (VStr "Urban Chic Hotel")
      ∧ d !! "id" = Some (VStr id).
Proof.
  assert (H1 : collection empty_store "hotel" = []) by reflexivity.
  assert (H2 : urban_chic ∈ SAMPLE_HOTELS) by (right; left).
  split_and!; [exact H1|exact H2|].
  destruct (seed_list_book has_at empty_store [] urban_chic H1 H2)
    as (d & id & Hlist & Hname & Hid & _).
  exists d, id. split_and!; [exact Hlist|exact Hname|exact Hid].
Defined.

(** Bob logs in without a name on a store that knows only Ann. *)
Lemma login_default_name_example :
  free_of "@" "bob"
  ∧ holding "email" (VStr "bob@x.org") (collection one_user_store "user") = []
  ∧ ∃ st' tr' d,
      login (LoginRequest.Build None "bob@x.org" "pw") (World (Some one_user_store) []) =
        (Return {| profile_name := VStr "bob"; profile_email := "bob@x.org" |},
         World (Some st') tr')
      ∧ holding "email" (VStr "bob@x.org") (collection st' "user") = [d]
      ∧ d !! "name" = Some (VStr "bob").
Proof.
  assert (H1 : free_of "@" "bob") by reflexivity.
  assert (H2 : holding "email" (VStr "bob@x.org") (collection one_user_store "user") = [])
    by (vm_compute; reflexivity).
  split_and!; [exact H1|exact H2|].
  exact (login_default_name None "bob" "x.org" "pw" one_user_store [] H1 H2).
Defined.

(** No seeded hotel is in Paris. *)
Lemma list_hotels_unknown_city_example :
  (get_hotels (Some "Paris") (World (Some seeded_store) [])).1 = Ok [].
Proof.
  apply (list_hotels_unknown_city seeded_store [] "Paris").
  - discriminate.
  - apply Forall_forall. apply (bool_decide_unpack _). vm_compute. exact I.
Defined.
